(** * Choreboard: the state-mutation API of [choreboard_server.py]

    A shallow embedding of the Flask handlers [log_chore],
    [update_weekly_chore], [add_chore], [delete_chore] and [reset_week],
    together with [read_data] / [write_data], over a model of the Python
    values that [json.load] and [request.json] produce.

    Modelling decisions, all taken from the source:
    - a Python value is a [json] tree.  A JSON number is a Python [int]
      (unbounded, hence [Z]) or a Python [float]; a float is NaN, an
      infinity or a signed dyadic rational, which covers every double.
      Only its comparisons and its truth value are ever used.
    - a Python [dict] is an association list in insertion order, read and
      written at the first binding of a key; [json_wf] says that no key
      is bound twice, which every real [dict] satisfies.
    - a handler runs in a state-and-exception monad [M] over the content
      of [db.json]; an uncaught exception leaves the file as the code
      left it (Flask answers 500).
    - the document is freshly parsed on every request, so it is a tree
      without sharing: an in-place mutation of a nested object is
      modelled by writing the new object back along the access path. *)

From Stdlib Require Import List String ZArith Bool Lia.
Import ListNotations.
Local Open Scope string_scope.
Local Open Scope Z_scope.
Local Open Scope list_scope.
Set Warnings "-register-all".

(** ** Python values *)

(** A Python [float] as [json.loads] yields it: the constants [NaN],
    [Infinity] and [-Infinity], or [(-1)^neg * m * 2^e]. *)
Inductive pyfloat : Type :=
| FNan
| FInf (neg : bool)
| FFin (neg : bool) (m : N) (e : Z).

Inductive json : Type :=
| JNull
| JBool (b : bool)
| JNum (n : Z)
| JFloat (f : pyfloat)
| JStr (s : string)
| JArr (items : list json)
| JObj (fields : list (string * json)).

(** The exceptions the handlers can raise. *)
Inductive exn : Type :=
| KeyError (key : string)
| TypeError
| AttributeError.

Inductive result (A : Type) : Type :=
| Ok (a : A)
| Raise (e : exn).
Arguments Ok {A} a.
Arguments Raise {A} e.

(** ** Dictionaries *)

Module Dict.

Definition t := list (string * json).

Fixpoint get (k : string) (d : t) : option json :=
  match d with
  | [] => None
  | (k', v) :: d' => if String.eqb k k' then Some v else get k d'
  end.

(** [d[k] = v]: an existing key keeps its position, a new one goes last. *)
Fixpoint set (k : string) (v : json) (d : t) : t :=
  match d with
  | [] => [(k, v)]
  | (k', v') :: d' =>
      if String.eqb k k' then (k', v) :: d' else (k', v') :: set k v d'
  end.

Definition mem (k : string) (d : t) : bool :=
  match get k d with Some _ => true | None => false end.

Definition keys (d : t) : list string := map fst d.

End Dict.

(** ** Python's [==] on parsed JSON

    [bool] is a subclass of [int] ([True == 1]); numbers compare by
    their exact value, whatever their type ([1 == 1.0]); NaN is unequal
    to everything, itself included; lists compare element-wise; dicts
    compare as maps, whatever the insertion order; values of unrelated
    types are unequal.  Lists and dicts compare their items with
    [x is y or x == y], and [json] hands out one and the same object for
    every NaN it parses: inside a list or a dict, NaN equals NaN. *)

(** The integer [(-1)^neg * m]. *)
Definition signed (neg : bool) (m : N) : Z :=
  if neg then Z.opp (Z.of_N m) else Z.of_N m.

(** [float == float] *)
Definition float_eq (a b : pyfloat) : bool :=
  match a, b with
  | FInf s, FInf s' => Bool.eqb s s'
  | FFin s m e, FFin s' m' e' =>
      let k := Z.min e e' in
      Z.eqb (signed s m * 2 ^ (e - k)) (signed s' m' * 2 ^ (e' - k))
  | _, _ => false
  end.

(** [float == int] *)
Definition float_eq_int (a : pyfloat) (n : Z) : bool :=
  match a with
  | FFin s m e =>
      if Z.leb 0 e
      then Z.eqb (signed s m * 2 ^ e) n
      else Z.eqb (signed s m) (n * 2 ^ (- e))
  | _ => false
  end.

Definition is_nan (x : json) : bool :=
  match x with
  | JFloat FNan => true
  | _ => false
  end.

Section Pointwise.

Variable eq : json -> json -> bool.

(** Two lists are equal when they have the same length and equal
    elements at every index. *)
Fixpoint list_eq (xs ys : list json) {struct xs} : bool :=
  match xs, ys with
  | [], [] => true
  | x :: xs', y :: ys' => eq x y && list_eq xs' ys'
  | _, _ => false
  end.

(** Every key of [fx] is a key of [fy], with an equal value. *)
Fixpoint dict_sub (fx fy : Dict.t) {struct fx} : bool :=
  match fx with
  | [] => true
  | (k, v) :: fx' =>
      match Dict.get k fy with
      | Some w => eq v w && dict_sub fx' fy
      | None => false
      end
  end.

End Pointwise.

Fixpoint py_eq (x y : json) {struct x} : bool :=
  match x, y with
  | JNull, JNull => true
  | JBool a, JBool b => Bool.eqb a b
  | JBool a, JNum n => Z.eqb (Z.b2z a) n
  | JNum n, JBool b => Z.eqb n (Z.b2z b)
  | JNum n, JNum m => Z.eqb n m
  | JFloat a, JFloat b => float_eq a b
  | JFloat a, JNum n => float_eq_int a n
  | JNum n, JFloat a => float_eq_int a n
  | JFloat a, JBool b => float_eq_int a (Z.b2z b)
  | JBool b, JFloat a => float_eq_int a (Z.b2z b)
  | JStr s, JStr u => String.eqb s u
  | JArr xs, JArr ys =>
      list_eq (fun x' y' => is_nan x' && is_nan y' || py_eq x' y') xs ys
  | JObj fx, JObj fy =>
      Nat.eqb (List.length fx) (List.length fy) &&
      dict_sub (fun v w => is_nan v && is_nan w || py_eq v w) fx fy
  | _, _ => false
  end.

(** How a list or a dict compares two of its items. *)
Definition item_eq (x y : json) : bool :=
  is_nan x && is_nan y || py_eq x y.

(** Truth value testing, as in [if payload['completed']:]. *)
Definition truthy (x : json) : bool :=
  match x with
  | JNull => false
  | JBool b => b
  | JNum n => negb (Z.eqb n 0)
  | JFloat (FFin _ m _) => negb (N.eqb m 0)
  | JFloat _ => true
  | JStr s => negb (String.eqb s "")
  | JArr l => match l with [] => false | _ => true end
  | JObj d => match d with [] => false | _ => true end
  end.

(** ** Evaluating Python expressions: the exception monad *)

Definition bind {A B : Type} (m : result A) (k : A -> result B) : result B :=
  match m with
  | Ok a => k a
  | Raise e => Raise e
  end.

Declare Scope py_scope.
Delimit Scope py_scope with py.
Notation "x <- m ;; k" := (bind m (fun x => k))
  (at level 100, m at next level, right associativity) : py_scope.
Local Open Scope py_scope.

(** [x[k]] for a string key [k]. *)
Definition getitem (x : json) (k : string) : result json :=
  match x with
  | JObj d => match Dict.get k d with
              | Some v => Ok v
              | None => Raise (KeyError k)
              end
  | _ => Raise TypeError
  end.

(** [x[k] = v]; the result is [x] after the assignment. *)
Definition setitem (x : json) (k : string) (v : json) : result json :=
  match x with
  | JObj d => Ok (JObj (Dict.set k v d))
  | _ => Raise TypeError
  end.

(** [x.append]: looking the method up fails on anything but a list; the
    bound method maps the argument to [x] after the call. *)
Definition append_of (x : json) : result (json -> json) :=
  match x with
  | JArr l => Ok (fun v => JArr (l ++ [v]))
  | _ => Raise AttributeError
  end.

(** [x.get]: only a dict has it; the bound method takes the key and the
    default. *)
Definition get_of (x : json) : result (string -> json -> json) :=
  match x with
  | JObj d => Ok (fun k dflt => match Dict.get k d with
                                | Some v => v
                                | None => dflt
                                end)
  | _ => Raise AttributeError
  end.

Fixpoint chars (s : string) : list json :=
  match s with
  | EmptyString => []
  | String c s' => JStr (String c EmptyString) :: chars s'
  end.

(** The items a [for] loop or a comprehension sees: the elements of a
    list, the keys of a dict, the characters of a string. *)
Definition py_iter (x : json) : result (list json) :=
  match x with
  | JArr l => Ok l
  | JObj d => Ok (map JStr (Dict.keys d))
  | JStr s => Ok (chars s)
  | _ => Raise TypeError
  end.

Fixpoint is_substring (k s : string) : bool :=
  String.prefix k s ||
  match s with
  | EmptyString => false
  | String _ s' => is_substring k s'
  end.

(** [k in x] for a string [k]. *)
Definition py_in (k : string) (x : json) : result bool :=
  match x with
  | JObj d => Ok (Dict.mem k d)
  | JArr l => Ok (existsb (py_eq (JStr k)) l)
  | JStr s => Ok (is_substring k s)
  | _ => Raise TypeError
  end.

(** [a and b] on comparison results: [b] is evaluated only when [a] holds. *)
Definition and_then (a b : result bool) : result bool :=
  x <- a ;; if x then b else Ok false.

(** [any(f(x) for x in l)]: stops at the first item for which [f] holds. *)
Fixpoint any_m (f : json -> result bool) (l : list json) : result bool :=
  match l with
  | [] => Ok false
  | x :: l' => b <- f x ;; if b then Ok true else any_m f l'
  end.

(** [[x for x in l if f(x)]]. *)
Fixpoint filter_m (f : json -> result bool) (l : list json)
  : result (list json) :=
  match l with
  | [] => Ok []
  | x :: l' =>
      b <- f x ;;
      rest <- filter_m f l' ;;
      Ok (if b then x :: rest else rest)
  end.

(** A [for] loop whose body mutates the current item ([body] returns the
    item after the mutation); the result is the list of items after the
    loop. *)
Fixpoint for_each (body : json -> result json) (l : list json)
  : result (list json) :=
  match l with
  | [] => Ok []
  | x :: l' =>
      x' <- body x ;;
      rest <- for_each body l' ;;
      Ok (x' :: rest)
  end.

(** The object at [path] replaced by [v], seen from the root [x]: how an
    in-place mutation of a nested object shows in the document. *)
Fixpoint put (path : list string) (v : json) (x : json) : json :=
  match path with
  | [] => v
  | k :: path' =>
      match x with
      | JObj d =>
          match Dict.get k d with
          | Some c => JObj (Dict.set k (put path' v c) d)
          | None => x
          end
      | _ => x
      end
  end.

(** The iterated object after a loop that left [items] behind: only the
    elements of a list are mutable objects; the keys of a dict and the
    characters of a string are not. *)
Definition after_loop (x : json) (items : list json) : json :=
  match x with
  | JArr _ => JArr items
  | _ => x
  end.

(** ** The document store: [db.json] *)

(** The content of [db.json]; [None] when the file does not exist. *)
Definition store := option json.

Definition M (A : Type) : Type := store -> result A * store.

Definition mret {A : Type} (a : A) : M A := fun st => (Ok a, st).

Definition mbind {A B : Type} (m : M A) (k : A -> M B) : M B :=
  fun st =>
    match m st with
    | (Ok a, st') => k a st'
    | (Raise e, st') => (Raise e, st')
    end.

Definition eval {A : Type} (r : result A) : M A := fun st => (r, st).

Notation "x <~ m ;; k" := (mbind m (fun x => k))
  (at level 100, m at next level, right associativity) : py_scope.

Definition default_data : json :=
  JObj [
    ("users", JArr [
       JObj [("id", JNum 1); ("name", JStr "Alex")];
       JObj [("id", JNum 2); ("name", JStr "Jordan")]]);
    ("masterChores", JArr [
       JObj [("id", JNum 1); ("name", JStr "Washed a dish");
             ("points", JNum 5); ("type", JStr "repeatable")];
       JObj [("id", JNum 2); ("name", JStr "Cleaned cat litter");
             ("points", JNum 20); ("type", JStr "repeatable")]]);
    ("currentWeek", JObj [
       ("prize", JStr "Winner picks dinner!");
       ("assignedChores", JArr []);
       ("completedLog", JArr [])])
  ].

Definition write_data (data : json) : M unit :=
  fun _ => (Ok tt, Some data).

Definition read_data : M json :=
  fun st =>
    match st with
    | None => (_ <~ write_data default_data ;; mret default_data) st
    | Some data => (Ok data, st)
    end.

(** A [for] loop of the form [for x in l: if cond(x): body(x); break]. *)
Fixpoint for_first (cond : json -> result bool) (body : json -> result json)
  (l : list json) : result (list json) :=
  match l with
  | [] => Ok []
  | x :: l' =>
      hit <- cond x ;;
      if hit
      then x' <- body x ;; Ok (x' :: l')
      else rest <- for_first cond body l' ;; Ok (x :: rest)
  end.

(** The document a request sees in store [st]: what [read_data] returns. *)
Definition document (st : store) : json :=
  match st with
  | Some data => data
  | None => default_data
  end.

(** The outcome of a handler that reads the document, evaluates [r] on
    it, and writes and returns the result: an exception skips the write. *)
Definition commit (st : store) (r : result json) : result json * store :=
  match r with
  | Ok data => (Ok data, Some data)
  | Raise e => (Raise e, Some (document st))
  end.

(** ** The API endpoints *)

(** [GET /api/state] *)
Definition get_state : M json :=
  data <~ read_data ;;
  mret data.

(** [POST /api/log_chore] *)
Definition log_chore (payload : json) : M json :=
  data <~ read_data ;;
  data <~ eval (
    cw <- getitem data "currentWeek" ;;
    log <- getitem cw "completedLog" ;;
    push <- append_of log ;;
    Ok (put ["currentWeek"; "completedLog"] (push payload) data)) ;;
  _ <~ write_data data ;;
  mret data.

(** [e['choreId'] == payload['choreId'] and e['userId'] == payload['userId']] *)
Definition same_pair (e payload : json) : result bool :=
  and_then
    (a <- getitem e "choreId" ;; b <- getitem payload "choreId" ;;
     Ok (py_eq a b))
    (a <- getitem e "userId" ;; b <- getitem payload "userId" ;;
     Ok (py_eq a b)).

(** [POST /api/update_weekly_chore] *)
Definition update_weekly_chore (payload : json) : M json :=
  data <~ read_data ;;
  data <~ eval (
    cw <- getitem data "currentWeek" ;;
    ac <- getitem cw "assignedChores" ;;
    chores <- py_iter ac ;;
    chores <- for_first
      (fun chore => same_pair chore payload)
      (fun chore =>
         v <- getitem payload "completed" ;;
         setitem chore "completed" v)
      chores ;;
    let data := put ["currentWeek"; "assignedChores"] (after_loop ac chores) data in
    completed <- getitem payload "completed" ;;
    if truthy completed then
      cw <- getitem data "currentWeek" ;;
      log <- getitem cw "completedLog" ;;
      logs <- py_iter log ;;
      log_exists <- any_m (fun log => same_pair log payload) logs ;;
      if negb log_exists then
        cw <- getitem data "currentWeek" ;;
        log <- getitem cw "completedLog" ;;
        push <- append_of log ;;
        get <- get_of payload ;;
        dflt <- getitem payload "choreId" ;;
        let logId := get "logId" dflt in
        choreId <- getitem payload "choreId" ;;
        userId <- getitem payload "userId" ;;
        get <- get_of payload ;;
        let timestamp := get "timestamp" JNull in
        Ok (put ["currentWeek"; "completedLog"]
              (push (JObj [("logId", logId); ("choreId", choreId);
                           ("userId", userId); ("timestamp", timestamp)]))
              data)
      else Ok data
    else
      cw <- getitem data "currentWeek" ;;
      log <- getitem cw "completedLog" ;;
      logs <- py_iter log ;;
      kept <- filter_m
        (fun log => hit <- same_pair log payload ;; Ok (negb hit)) logs ;;
      cw <- getitem data "currentWeek" ;;
      cw <- setitem cw "completedLog" (JArr kept) ;;
      Ok (put ["currentWeek"] cw data)) ;;
  _ <~ write_data data ;;
  mret data.

(** [POST /api/add_chore] *)
Definition add_chore (new_chore_data : json) : M json :=
  data <~ read_data ;;
  data <~ eval (
    id <- getitem new_chore_data "id" ;;
    name <- getitem new_chore_data "name" ;;
    points <- getitem new_chore_data "points" ;;
    type <- getitem new_chore_data "type" ;;
    let chore_to_add :=
      JObj [("id", id); ("name", name); ("points", points); ("type", type)] in
    mc <- getitem data "masterChores" ;;
    push <- append_of mc ;;
    let data := put ["masterChores"] (push chore_to_add) data in
    weekly <- and_then
      (type <- getitem new_chore_data "type" ;; Ok (py_eq type (JStr "weekly")))
      (py_in "assignedUserId" new_chore_data) ;;
    if weekly then
      cw <- getitem data "currentWeek" ;;
      ac <- getitem cw "assignedChores" ;;
      push <- append_of ac ;;
      choreId <- getitem new_chore_data "id" ;;
      userId <- getitem new_chore_data "assignedUserId" ;;
      Ok (put ["currentWeek"; "assignedChores"]
            (push (JObj [("choreId", choreId); ("userId", userId);
                         ("completed", JBool false)]))
            data)
    else Ok data) ;;
  _ <~ write_data data ;;
  mret data.

(** [[x for x in xs if x[key] != chore_id]] *)
Definition without_chore (key : string) (chore_id : json) (xs : json)
  : result json :=
  items <- py_iter xs ;;
  kept <- filter_m
    (fun x => v <- getitem x key ;; Ok (negb (py_eq v chore_id))) items ;;
  Ok (JArr kept).

(** [POST /api/delete_chore] *)
Definition delete_chore (payload : json) : M json :=
  chore_id_to_delete <~ eval (getitem payload "choreId") ;;
  data <~ read_data ;;
  data <~ eval (
    mc <- getitem data "masterChores" ;;
    mc <- without_chore "id" chore_id_to_delete mc ;;
    data <- setitem data "masterChores" mc ;;
    cw <- getitem data "currentWeek" ;;
    ac <- getitem cw "assignedChores" ;;
    ac <- without_chore "choreId" chore_id_to_delete ac ;;
    cw <- getitem data "currentWeek" ;;
    cw <- setitem cw "assignedChores" ac ;;
    let data := put ["currentWeek"] cw data in
    cw <- getitem data "currentWeek" ;;
    log <- getitem cw "completedLog" ;;
    log <- without_chore "choreId" chore_id_to_delete log ;;
    cw <- getitem data "currentWeek" ;;
    cw <- setitem cw "completedLog" log ;;
    Ok (put ["currentWeek"] cw data)) ;;
  _ <~ write_data data ;;
  mret data.

(** [POST /api/reset_week] *)
Definition reset_week (payload : json) : M json :=
  _ <~ eval (getitem payload "prize") ;;
  data <~ read_data ;;
  data <~ eval (
    prize <- getitem payload "prize" ;;
    cw <- getitem data "currentWeek" ;;
    cw <- setitem cw "prize" prize ;;
    let data := put ["currentWeek"] cw data in
    cw <- getitem data "currentWeek" ;;
    cw <- setitem cw "completedLog" (JArr []) ;;
    let data := put ["currentWeek"] cw data in
    cw <- getitem data "currentWeek" ;;
    ac <- getitem cw "assignedChores" ;;
    chores <- py_iter ac ;;
    chores <- for_each (fun chore => setitem chore "completed" (JBool false))
                chores ;;
    Ok (put ["currentWeek"; "assignedChores"] (after_loop ac chores) data)) ;;
  _ <~ write_data data ;;
  mret data.

(** ** Requests and reachable stores *)

Inductive request : Type :=
| GetState
| LogChore (payload : json)
| UpdateWeeklyChore (payload : json)
| AddChore (payload : json)
| DeleteChore (payload : json)
| ResetWeek (payload : json).

Definition handle (r : request) : M json :=
  match r with
  | GetState => get_state
  | LogChore p => log_chore p
  | UpdateWeeklyChore p => update_weekly_chore p
  | AddChore p => add_chore p
  | DeleteChore p => delete_chore p
  | ResetWeek p => reset_week p
  end.

(** The store a request leaves behind. *)
Definition serve (r : request) (st : store) : store := snd (handle r st).

(** The stores a fresh installation (no [db.json]) can get into. *)
Inductive reachable : store -> Prop :=
| reach_fresh : reachable None
| reach_serve (r : request) (st : store) :
    reachable st -> reachable (serve r st).

(** ** Reading a document

    The vocabulary of the statements below: the fields of the root
    document and of its current week, as options that are [None] when
    the path does not exist. *)

Definition field (k : string) (x : json) : option json :=
  match x with
  | JObj d => Dict.get k d
  | _ => None
  end.

Definition has_key (k : string) (x : json) : bool :=
  match field k x with Some _ => true | None => false end.

Definition is_obj (x : json) : bool :=
  match x with JObj _ => true | _ => false end.

Definition week_field (k : string) (data : json) : option json :=
  match field "currentWeek" data with
  | Some cw => field k cw
  | None => None
  end.

Definition users (data : json) : option json := field "users" data.
Definition masterChores (data : json) : option json := field "masterChores" data.
Definition prize (data : json) : option json := week_field "prize" data.
Definition assignedChores (data : json) : option json :=
  week_field "assignedChores" data.
Definition completedLog (data : json) : option json :=
  week_field "completedLog" data.

(** [x'] has the same fields as [x], except possibly those named in [ks]. *)
Definition unchanged_but (ks : list string) (x x' : json) : Prop :=
  is_obj x' = is_obj x /\
  forall k, ~ In k ks -> field k x' = field k x.

(** The current week of [data'] has the same fields as that of [data],
    except possibly those named in [ks]. *)
Definition week_unchanged_but (ks : list string) (data data' : json) : Prop :=
  exists cw cw',
    field "currentWeek" data = Some cw /\
    field "currentWeek" data' = Some cw' /\
    unchanged_but ks cw cw'.

(** The entry [e] is about chore [cid]: its field [key] equals [cid]. *)
Definition refers_to (key : string) (cid : json) (e : json) : bool :=
  match field key e with
  | Some v => py_eq v cid
  | None => false
  end.

(** The entry [e] is for the pair ([cid], [uid]). *)
Definition for_pair (cid uid : json) (e : json) : bool :=
  refers_to "choreId" cid e && refers_to "userId" uid e.

(** An entry that can be asked for its pair. *)
Definition is_entry (e : json) : bool :=
  has_key "choreId" e && has_key "userId" e.

(** The entries of [l] that are not about chore [cid], in their order. *)
Definition others (key : string) (cid : json) (l : list json) : list json :=
  filter (fun e => negb (refers_to key cid e)) l.

(** The entries of [l] that are not for the pair ([cid], [uid]), in
    their order. *)
Definition other_pairs (cid uid : json) (l : list json) : list json :=
  filter (fun e => negb (for_pair cid uid e)) l.

(** How many entries of [l] are for the pair ([cid], [uid]). *)
Definition count_for (cid uid : json) (l : list json) : nat :=
  List.length (filter (for_pair cid uid) l).

(** The list [l] with [h] applied to its first element satisfying [g]. *)
Fixpoint update_first (g : json -> bool) (h : json -> json) (l : list json)
  : list json :=
  match l with
  | [] => []
  | x :: l' => if g x then h x :: l' else x :: update_first g h l'
  end.

(** The object [x] with its field [k] set to [v]. *)
Definition with_field (k : string) (v : json) (x : json) : json :=
  match x with
  | JObj d => JObj (Dict.set k v d)
  | _ => x
  end.

(** The value of an optional payload field. *)
Definition field_or (k : string) (dflt : json) (x : json) : json :=
  match field k x with
  | Some v => v
  | None => dflt
  end.

(** The CompletedLogEntry that [update_weekly_chore] builds from a
    payload whose choreId is [cid] and whose userId is [uid]. *)
Definition new_log_entry (payload cid uid : json) : json :=
  JObj [("logId", field_or "logId" cid payload);
        ("choreId", cid);
        ("userId", uid);
        ("timestamp", field_or "timestamp" JNull payload)].

(** The completedLog that [update_weekly_chore] leaves behind, for a
    payload with choreId [cid], userId [uid] and completed [c]. *)
Definition log_after (payload cid uid c : json) (log : list json)
  : list json :=
  if truthy c
  then if existsb (for_pair cid uid) log
       then log
       else log ++ [new_log_entry payload cid uid]
  else other_pairs cid uid log.

(** The MasterChore that [add_chore] builds. *)
Definition master_entry (id name points type : json) : json :=
  JObj [("id", id); ("name", name); ("points", points); ("type", type)].

Definition is_weekly (type : json) : bool :=
  match type with
  | JStr s => String.eqb s "weekly"
  | _ => false
  end.

(** The AssignedChore rows that one [add_chore] appends: one row when the
    type is "weekly" and the payload has the key assignedUserId, none
    otherwise. *)
Definition assigned_rows (payload id type : json) : list json :=
  match field "assignedUserId" payload with
  | Some u =>
      if is_weekly type
      then [JObj [("choreId", id); ("userId", u); ("completed", JBool false)]]
      else []
  | None => []
  end.

(** The part of the data model that the handlers themselves maintain:
    the three lists exist, every MasterChore has an id, and every
    AssignedChore has a choreId and a userId.  Nothing is said about the
    entries of completedLog, which [log_chore] takes from the caller. *)
Definition well_shaped (data : json) : Prop :=
  exists mc ac log,
    masterChores data = Some (JArr mc) /\
    assignedChores data = Some (JArr ac) /\
    completedLog data = Some (JArr log) /\
    Forall (fun c => has_key "id" c = true) mc /\
    Forall (fun e => is_entry e = true) ac.

Fixpoint no_dup (ks : list string) : bool :=
  match ks with
  | [] => true
  | k :: ks' => negb (existsb (String.eqb k) ks') && no_dup ks'
  end.

(** A value in which no dict binds a key twice, as in every value that
    [json.loads] builds. *)
Fixpoint json_wf (x : json) : bool :=
  match x with
  | JArr l => forallb json_wf l
  | JObj d => no_dup (Dict.keys d) && forallb (fun kv => json_wf (snd kv)) d
  | _ => true
  end.

(** ** Sample documents

    The week of the scenario: chore 3 was added for user 1, then
    completed. *)
Definition trash_chores : list json :=
  [JObj [("id", JNum 1); ("name", JStr "Washed a dish");
         ("points", JNum 5); ("type", JStr "repeatable")];
   JObj [("id", JNum 2); ("name", JStr "Cleaned cat litter");
         ("points", JNum 20); ("type", JStr "repeatable")];
   JObj [("id", JNum 3); ("name", JStr "Take out trash");
         ("points", JNum 10); ("type", JStr "weekly")]].

Definition trash_assigned : list json :=
  [JObj [("choreId", JNum 3); ("userId", JNum 1); ("completed", JBool true)]].

Definition trash_log : list json :=
  [JObj [("logId", JNum 3); ("choreId", JNum 3); ("userId", JNum 1);
         ("timestamp", JStr "T1")]].

Definition trash_week : json :=
  JObj [
    ("users", JArr [
       JObj [("id", JNum 1); ("name", JStr "Alex")];
       JObj [("id", JNum 2); ("name", JStr "Jordan")]]);
    ("masterChores", JArr trash_chores);
    ("currentWeek", JObj [
       ("prize", JStr "Winner picks dinner!");
       ("assignedChores", JArr trash_assigned);
       ("completedLog", JArr trash_log)])
  ].

(** The payloads of the scenario: adding chore 3 for user 1, ticking and
    unticking it. *)
Definition take_out_trash : json :=
  JObj [("id", JNum 3); ("name", JStr "Take out trash"); ("points", JNum 10);
        ("type", JStr "weekly"); ("assignedUserId", JNum 1)].

Definition tick : json :=
  JObj [("choreId", JNum 3); ("userId", JNum 1); ("completed", JBool true);
        ("timestamp", JStr "T1")].

Definition untick : json :=
  JObj [("choreId", JNum 3); ("userId", JNum 1); ("completed", JBool false)].

(** The store after a fresh installation served one [log_chore] request
    whose payload has no choreId. *)
Definition noted_store : store :=
  serve (LogChore (JObj [("note", JStr "swept")])) None.

(** The week of the scenario, and the week before chore 3 was ticked,
    each after one more [log_chore] request whose payload has no
    choreId. *)
Definition noted_trash_store : store :=
  serve (LogChore (JObj [("note", JStr "swept")])) (Some trash_week).

Definition noted_todo_store : store :=
  serve (LogChore (JObj [("note", JStr "swept")]))
    (serve (AddChore take_out_trash) None).

(** A log entry for the repeatable chore 1, done by user 2. *)
Definition dish_entry (logId : Z) : json :=
  JObj [("logId", JNum logId); ("choreId", JNum 1); ("userId", JNum 2);
        ("timestamp", JStr "T0")].

(** A fresh installation after two [log_chore] requests for the same
    repeatable chore and the same user. *)
Definition dishes_store : store :=
  serve (LogChore (dish_entry 2)) (serve (LogChore (dish_entry 1)) None).

(** An [update_weekly_chore] payload for that chore and user. *)
Definition dish_done : json :=
  JObj [("choreId", JNum 1); ("userId", JNum 2); ("completed", JBool true)].

(** An [update_weekly_chore] payload whose choreId is the float NaN,
    which [request.json] accepts. *)
Definition nan_done : json :=
  JObj [("choreId", JFloat FNan); ("userId", JNum 1);
        ("completed", JBool true)].

(** ** What a request may write

    The fields of the root document, and of its current week, that the
    handler of a request assigns to. *)
Definition root_writes (r : request) : list string :=
  match r with
  | GetState => []
  | LogChore _ | UpdateWeeklyChore _ | ResetWeek _ => ["currentWeek"]
  | AddChore _ | DeleteChore _ => ["masterChores"; "currentWeek"]
  end.

Definition week_writes (r : request) : list string :=
  match r with
  | GetState => []
  | LogChore _ => ["completedLog"]
  | UpdateWeeklyChore _ => ["assignedChores"; "completedLog"]
  | AddChore _ => ["assignedChores"]
  | DeleteChore _ => ["assignedChores"; "completedLog"]
  | ResetWeek _ => ["prize"; "completedLog"; "assignedChores"]
  end.

(** [data'] differs from [data] at most in the root fields [rk] and in
    the fields [wk] of the current week. *)
Definition framed (rk wk : list string) (data data' : json) : Prop :=
  unchanged_but rk data data' /\ week_unchanged_but wk data data'.

(** The first key of [ks] that the payload [x] does not have. *)
Definition first_missing (ks : list string) (x : json) : option string :=
  find (fun k => negb (has_key k x)) ks.

(** * Properties *)

(** ** The sample documents are reachable *)

Lemma trash_week_reachable : reachable (Some trash_week).
Proof.
  change (Some trash_week)
    with (serve (UpdateWeeklyChore tick) (serve (AddChore take_out_trash) None)).
  apply reach_serve, reach_serve, reach_fresh.
Qed.

(** ** Dictionaries *)

Module DictFacts.

Lemma get_set_same k v d : Dict.get k (Dict.set k v d) = Some v.
Proof.
  induction d as [|[k' w] d IH]; simpl.
  - now rewrite String.eqb_refl.
  - destruct (String.eqb k k') eqn:E; simpl; rewrite E; auto.
Qed.

Lemma get_set_other k k' v d :
  k <> k' -> Dict.get k' (Dict.set k v d) = Dict.get k' d.
Proof.
  intros Hne. induction d as [|[k0 w] d IH]; simpl.
  - destruct (String.eqb_spec k' k); congruence.
  - destruct (String.eqb_spec k k0) as [->|]; simpl.
    + destruct (String.eqb_spec k' k0); congruence.
    + now rewrite IH.
Qed.

Lemma set_set k v w d : Dict.set k v (Dict.set k w d) = Dict.set k v d.
Proof.
  induction d as [|[k' u] d IH]; simpl.
  - now rewrite String.eqb_refl.
  - destruct (String.eqb k k') eqn:E; simpl; rewrite E; congruence.
Qed.

Lemma set_same k v d : Dict.get k d = Some v -> Dict.set k v d = d.
Proof.
  induction d as [|[k' u] d IH]; simpl; [discriminate|].
  destruct (String.eqb k k'); intros H.
  - congruence.
  - now rewrite IH.
Qed.

End DictFacts.

Create Rewrite HintDb dict.
#[local] Hint Rewrite DictFacts.get_set_same DictFacts.set_set : dict.
#[local] Hint Rewrite DictFacts.get_set_other using discriminate : dict.

(** ** Running a handler *)

Lemma run_body (f : json -> result json) (st : store) :
  (data <~ read_data ;;
   data <~ eval (f data) ;;
   _ <~ write_data data ;;
   mret data) st
  = commit st (f (document st)).
Proof.
  destruct st as [data|]; unfold mbind, read_data, eval, write_data, mret, commit;
    simpl; destruct (f _); reflexivity.
Qed.

(** ** Reading fields *)

Lemma field_inv k x v :
  field k x = Some v -> exists d, x = JObj d /\ Dict.get k d = Some v.
Proof. destruct x; simpl; try discriminate. eauto. Qed.

Lemma week_field_inv k data v :
  week_field k data = Some v ->
  exists d dcw,
    data = JObj d /\ Dict.get "currentWeek" d = Some (JObj dcw) /\
    Dict.get k dcw = Some v.
Proof.
  unfold week_field. destruct (field "currentWeek" data) as [cw|] eqn:E;
    [|discriminate].
  intros H. apply field_inv in E as (d & -> & Hd).
  apply field_inv in H as (dcw & -> & Hk). eauto.
Qed.

Lemma unchanged_but_set k v d ks :
  In k ks -> unchanged_but ks (JObj d) (JObj (Dict.set k v d)).
Proof.
  intros Hin. split; [reflexivity|]. intros k' Hk'. simpl.
  apply DictFacts.get_set_other. intros ->. contradiction.
Qed.

(** ** Log Chore *)

Lemma log_chore_run st payload d dcw log :
  document st = JObj d ->
  Dict.get "currentWeek" d = Some (JObj dcw) ->
  Dict.get "completedLog" dcw = Some (JArr log) ->
  log_chore payload st =
  commit st (Ok (JObj (Dict.set "currentWeek"
    (JObj (Dict.set "completedLog" (JArr (log ++ [payload])) dcw)) d))).
Proof.
  intros Hd Hcw Hlog. unfold log_chore. rewrite run_body. rewrite Hd.
  simpl. rewrite Hcw. simpl. rewrite Hlog. reflexivity.
Qed.

(** C8. For every document (with a current week holding a completedLog
    list) and every payload, [log_chore] returns and persists a document
    whose completedLog is the old one followed by the payload itself,
    unmodified and unvalidated; every other field of the root document
    (users, masterChores) and of the current week (prize, assignedChores)
    is unchanged. *)
Theorem log_chore_appends_payload_verbatim st payload log :
  completedLog (document st) = Some (JArr log) ->
  exists data',
    log_chore payload st = (Ok data', Some data') /\
    completedLog data' = Some (JArr (log ++ [payload])) /\
    users data' = users (document st) /\
    masterChores data' = masterChores (document st) /\
    prize data' = prize (document st) /\
    assignedChores data' = assignedChores (document st) /\
    unchanged_but ["currentWeek"] (document st) data' /\
    week_unchanged_but ["completedLog"] (document st) data'.
Proof.
  intros H. apply week_field_inv in H as (d & dcw & Hd & Hcw & Hlog).
  eexists. split; [rewrite (log_chore_run st payload d dcw log) by assumption;
                   reflexivity|].
  rewrite Hd.
  unfold completedLog, users, masterChores, prize, assignedChores, week_field.
  simpl. autorewrite with dict. simpl. autorewrite with dict. rewrite Hcw.
  repeat split; auto.
  - apply unchanged_but_set. now left.
  - exists (JObj dcw). eexists. simpl. autorewrite with dict.
    repeat split; eauto. intros k Hk. simpl.
    apply DictFacts.get_set_other. intros E. apply Hk. now left.
Qed.

Lemma log_chore_appends_payload_verbatim_witness :
  completedLog (document None) = Some (JArr []) /\
  exists data',
    log_chore (JObj [("note", JStr "swept")]) None = (Ok data', Some data') /\
    completedLog data' = Some (JArr ([] ++ [JObj [("note", JStr "swept")]])) /\
    users data' = users (document None) /\
    masterChores data' = masterChores (document None) /\
    prize data' = prize (document None) /\
    assignedChores data' = assignedChores (document None) /\
    unchanged_but ["currentWeek"] (document None) data' /\
    week_unchanged_but ["completedLog"] (document None) data'.
Proof.
  split; [reflexivity|].
  apply (log_chore_appends_payload_verbatim None _ []). reflexivity.
Defined.

(** ** Comprehensions and loops *)

Lemma has_key_getitem k x :
  has_key k x = true -> exists v, field k x = Some v /\ getitem x k = Ok v.
Proof.
  unfold has_key. destruct x; simpl; try discriminate.
  destruct (Dict.get k fields); [eauto|discriminate].
Qed.

Lemma getitem_field k x v : getitem x k = Ok v <-> field k x = Some v.
Proof.
  destruct x; simpl; try (split; discriminate).
  destruct (Dict.get k fields); split; congruence.
Qed.

Lemma getitem_has_key k x v : getitem x k = Ok v -> has_key k x = true.
Proof. intros H. apply getitem_field in H. unfold has_key. now rewrite H. Qed.

Section FilterM.

Variables (f : json -> result bool) (g : json -> bool) (P : json -> Prop).
Hypothesis f_total : forall x, P x -> f x = Ok (g x).
Hypothesis f_partial : forall x b, f x = Ok b -> P x.

Lemma filter_m_filter l :
  Forall P l -> filter_m f l = Ok (filter g l).
Proof.
  induction 1 as [|x l Hx _ IH]; simpl; [reflexivity|].
  rewrite (f_total x Hx), IH. simpl. now destruct (g x).
Qed.

Lemma filter_m_defined l kept :
  filter_m f l = Ok kept -> Forall P l.
Proof.
  revert kept. induction l as [|x l IH]; simpl; intros kept H; [constructor|].
  destruct (f x) as [b|] eqn:Ef; [|discriminate]. simpl in H.
  destruct (filter_m f l) as [rest|]; [|discriminate].
  constructor; eauto.
Qed.

End FilterM.

Lemma filter_idem {A} (g : A -> bool) l : filter g (filter g l) = filter g l.
Proof.
  induction l as [|x l IH]; simpl; [reflexivity|].
  destruct (g x) eqn:E; simpl; rewrite ?E; congruence.
Qed.

Lemma Forall_filter {A} (P : A -> Prop) g l : Forall P l -> Forall P (filter g l).
Proof.
  induction 1; simpl; [constructor|]. destruct (g x); [constructor|]; auto.
Qed.

Lemma filter_all {A} (g : A -> bool) l :
  Forall (fun x => g x = true) l -> filter g l = l.
Proof. induction 1 as [|x l Hx _ IH]; simpl; [|rewrite Hx, IH]; reflexivity. Qed.

(** ** Delete Chore *)

Lemma others_none key cid l :
  Forall (fun e => refers_to key cid e = false) l -> others key cid l = l.
Proof.
  intros H. apply filter_all. eapply Forall_impl; [|exact H].
  simpl. now intros e ->.
Qed.

Lemma keep_other_total key cid x :
  has_key key x = true ->
  (v <- getitem x key ;; Ok (negb (py_eq v cid))) = Ok (negb (refers_to key cid x)).
Proof.
  intros Hx. apply has_key_getitem in Hx as (v & Hf & Hg).
  rewrite Hg. unfold refers_to. now rewrite Hf.
Qed.

Lemma keep_other_partial key cid x b :
  (v <- getitem x key ;; Ok (negb (py_eq v cid))) = Ok b -> has_key key x = true.
Proof.
  destruct (getitem x key) eqn:G; [|discriminate].
  intros _. eapply getitem_has_key; eauto.
Qed.

Lemma without_chore_list key cid l :
  Forall (fun e => has_key key e = true) l ->
  without_chore key cid (JArr l) = Ok (JArr (others key cid l)).
Proof.
  intros H. unfold without_chore, others. simpl.
  rewrite (filter_m_filter _ _ _ (keep_other_total key cid) l H).
  reflexivity.
Qed.

Lemma without_chore_inv key cid xs r :
  without_chore key cid xs = Ok r ->
  exists items,
    py_iter xs = Ok items /\
    Forall (fun e => has_key key e = true) items /\
    r = JArr (others key cid items).
Proof.
  unfold without_chore. destruct (py_iter xs) as [items|]; [|discriminate].
  simpl. intros H. exists items.
  destruct (filter_m _ items) as [kept|] eqn:E; [|discriminate].
  pose proof (filter_m_defined _ _ (keep_other_partial key cid) _ _ E) as HP.
  rewrite (filter_m_filter _ _ _ (keep_other_total key cid) _ HP) in E.
  simpl in H. split; [reflexivity|]. split; [assumption|].
  unfold others. congruence.
Qed.

Lemma without_chore_again key cid xs r :
  without_chore key cid xs = Ok r -> without_chore key cid r = Ok r.
Proof.
  intros H. apply without_chore_inv in H as (items & _ & HP & ->).
  rewrite without_chore_list by (apply Forall_filter; assumption).
  unfold others. now rewrite filter_idem.
Qed.

(** Evaluate a handler body along the facts known about its input. *)
Ltac crunch :=
  repeat (first
    [ progress simpl
    | progress (autorewrite with dict)
    | match goal with
      | H : _ = Some _ |- _ => rewrite H
      | H : _ = Ok _ |- _ => rewrite H
      end ]).

Lemma delete_chore_early payload st e :
  getitem payload "choreId" = Raise e ->
  delete_chore payload st = (Raise e, st).
Proof. intros H. unfold delete_chore, mbind, eval. now rewrite H. Qed.

Lemma delete_chore_run payload st cid d dcw mc ac log mc' ac' log' :
  getitem payload "choreId" = Ok cid ->
  document st = JObj d ->
  Dict.get "masterChores" d = Some mc ->
  Dict.get "currentWeek" d = Some (JObj dcw) ->
  Dict.get "assignedChores" dcw = Some ac ->
  Dict.get "completedLog" dcw = Some log ->
  without_chore "id" cid mc = Ok mc' ->
  without_chore "choreId" cid ac = Ok ac' ->
  without_chore "choreId" cid log = Ok log' ->
  delete_chore payload st =
  commit st (Ok (JObj (Dict.set "currentWeek"
    (JObj (Dict.set "completedLog" log' (Dict.set "assignedChores" ac' dcw)))
    (Dict.set "masterChores" mc' d)))).
Proof.
  intros Hp Hd Hmc Hcw Hac Hlog Hmc' Hac' Hlog'.
  unfold delete_chore. unfold mbind at 1, eval at 1. rewrite Hp.
  rewrite run_body. f_equal. rewrite Hd. crunch. reflexivity.
Qed.

(** Only the document matters, not whether [db.json] existed before. *)
Lemma delete_chore_document payload st cid :
  getitem payload "choreId" = Ok cid ->
  delete_chore payload st = delete_chore payload (Some (document st)).
Proof.
  intros Hp. destruct st as [data|]; [reflexivity|].
  unfold delete_chore. unfold mbind at 1, eval at 1.
  unfold mbind at 4, eval at 3. rewrite Hp. now rewrite !run_body.
Qed.

(** Either the body of [delete_chore] raises, or the document has the
    shape the three comprehensions need. *)
Lemma delete_chore_outcome payload data cid :
  getitem payload "choreId" = Ok cid ->
  (exists e, delete_chore payload (Some data) = (Raise e, Some data))
  \/
  (exists d dcw mc ac log mc' ac' log',
      data = JObj d /\
      Dict.get "masterChores" d = Some mc /\
      Dict.get "currentWeek" d = Some (JObj dcw) /\
      Dict.get "assignedChores" dcw = Some ac /\
      Dict.get "completedLog" dcw = Some log /\
      without_chore "id" cid mc = Ok mc' /\
      without_chore "choreId" cid ac = Ok ac' /\
      without_chore "choreId" cid log = Ok log').
Proof.
  intros Hp. unfold delete_chore. unfold mbind at 1, eval at 1. rewrite Hp.
  rewrite run_body. simpl document.
  destruct data as [| | | | | |d]; try (left; eexists; reflexivity).
  simpl.
  destruct (Dict.get "masterChores" d) as [mc|] eqn:Hmc;
    [|left; eexists; reflexivity].
  simpl.
  destruct (without_chore "id" cid mc) as [mc'|] eqn:Hmc';
    [|left; eexists; reflexivity].
  simpl. autorewrite with dict.
  destruct (Dict.get "currentWeek" d) as [cw|] eqn:Hcw;
    [|left; eexists; reflexivity].
  simpl.
  destruct cw as [| | | | | |dcw]; try (left; eexists; reflexivity).
  simpl.
  destruct (Dict.get "assignedChores" dcw) as [ac|] eqn:Hac;
    [|left; eexists; reflexivity].
  simpl.
  destruct (without_chore "choreId" cid ac) as [ac'|] eqn:Hac';
    [|left; eexists; reflexivity].
  crunch.
  destruct (Dict.get "completedLog" dcw) as [log|] eqn:Hlog;
    [|left; eexists; reflexivity].
  simpl.
  destruct (without_chore "choreId" cid log) as [log'|] eqn:Hlog';
    [|left; eexists; reflexivity].
  right. exists d, dcw, mc, ac, log, mc', ac', log'. repeat split; auto.
Qed.

Lemma document_inv data mc ac log :
  masterChores data = Some mc ->
  assignedChores data = Some ac ->
  completedLog data = Some log ->
  exists d dcw,
    data = JObj d /\
    Dict.get "masterChores" d = Some mc /\
    Dict.get "currentWeek" d = Some (JObj dcw) /\
    Dict.get "assignedChores" dcw = Some ac /\
    Dict.get "completedLog" dcw = Some log.
Proof.
  intros Hmc Hac Hlog.
  apply week_field_inv in Hac as (d & dcw & -> & Hcw & Hac).
  apply week_field_inv in Hlog as (d' & dcw' & Hd & Hcw' & Hlog).
  injection Hd as <-. rewrite Hcw in Hcw'. injection Hcw' as <-.
  exists d, dcw. auto.
Qed.

(** Fields other than [k1] and [k2] survive two assignments. *)
Lemma unchanged_but_set2 k1 k2 v1 v2 d ks :
  In k1 ks -> In k2 ks ->
  unchanged_but ks (JObj d) (JObj (Dict.set k1 v1 (Dict.set k2 v2 d))).
Proof.
  intros H1 H2. split; [reflexivity|]. intros k Hk. simpl.
  rewrite !DictFacts.get_set_other; auto; intros E; apply Hk; now subst.
Qed.

(** C2, as the code has it. For every document whose masterChores,
    assignedChores and completedLog are lists and every payload with a
    choreId: [delete_chore] returns exactly when every masterChores
    entry has an id and every assignedChores and completedLog entry has
    a choreId.  When it returns, it returns and persists a document
    whose masterChores are exactly the prior entries whose id differs
    from choreId, and whose assignedChores and completedLog are exactly
    the prior entries whose choreId differs from it, in their prior
    order ([others] is a [filter]); users, prize and every other field
    of the root document and of the current week are unchanged.  When it
    raises (some entry lacks the key the filter reads, as a payload that
    [log_chore] appended may), nothing is removed: the document stays as
    it was. *)
Theorem delete_chore_filters_three_lists st payload cid mc ac log :
  field "choreId" payload = Some cid ->
  masterChores (document st) = Some (JArr mc) ->
  assignedChores (document st) = Some (JArr ac) ->
  completedLog (document st) = Some (JArr log) ->
  (Forall (fun c => has_key "id" c = true) mc ->
   Forall (fun e => has_key "choreId" e = true) ac ->
   Forall (fun e => has_key "choreId" e = true) log ->
   exists data',
     delete_chore payload st = (Ok data', Some data') /\
     masterChores data' = Some (JArr (others "id" cid mc)) /\
     assignedChores data' = Some (JArr (others "choreId" cid ac)) /\
     completedLog data' = Some (JArr (others "choreId" cid log)) /\
     users data' = users (document st) /\
     prize data' = prize (document st) /\
     unchanged_but ["masterChores"; "currentWeek"] (document st) data' /\
     week_unchanged_but ["assignedChores"; "completedLog"]
       (document st) data') /\
  (forall data' st',
      delete_chore payload st = (Ok data', st') ->
      Forall (fun c => has_key "id" c = true) mc /\
      Forall (fun e => has_key "choreId" e = true) ac /\
      Forall (fun e => has_key "choreId" e = true) log) /\
  (forall e st',
      delete_chore payload st = (Raise e, st') ->
      st' = Some (document st)).
Proof.
  intros Hp Hmc Hac Hlog.
  apply getitem_field in Hp.
  destruct (document_inv _ _ _ _ Hmc Hac Hlog)
    as (d & dcw & Hd & Gmc & Gcw & Gac & Glog).
  split; [|split].
  - intros Fmc Fac Flog. eexists. split.
    + rewrite (delete_chore_run payload st cid d dcw _ _ _ _ _ _
                 Hp Hd Gmc Gcw Gac Glog
                 (without_chore_list _ _ _ Fmc) (without_chore_list _ _ _ Fac)
                 (without_chore_list _ _ _ Flog)).
      reflexivity.
    + rewrite Hd.
      unfold masterChores, assignedChores, completedLog, users, prize,
        week_field.
      crunch. repeat split; auto.
      * apply unchanged_but_set2; simpl; auto.
      * exists (JObj dcw). eexists. crunch. repeat split; eauto.
        apply unchanged_but_set2; simpl; auto.
  - intros data' st' Hrun.
    rewrite (delete_chore_document payload st cid Hp) in Hrun.
    destruct (delete_chore_outcome payload (document st) cid Hp)
      as [(e & He) | (d0 & dcw0 & mc0 & ac0 & log0 & mc' & ac' & log' &
                      Hd0 & Gmc0 & Gcw0 & Gac0 & Glog0 & Hmc' & Hac' & Hlog')];
      [congruence|].
    rewrite Hd in Hd0. injection Hd0 as <-.
    rewrite Gcw in Gcw0. injection Gcw0 as <-.
    rewrite Gmc in Gmc0. injection Gmc0 as <-.
    rewrite Gac in Gac0. injection Gac0 as <-.
    rewrite Glog in Glog0. injection Glog0 as <-.
    apply without_chore_inv in Hmc' as (? & [= <-] & Fmc & _).
    apply without_chore_inv in Hac' as (? & [= <-] & Fac & _).
    apply without_chore_inv in Hlog' as (? & [= <-] & Flog & _).
    auto.
  - intros e st' Hrun.
    rewrite (delete_chore_document payload st cid Hp) in Hrun.
    destruct (delete_chore_outcome payload (document st) cid Hp)
      as [(e0 & He) | (d0 & dcw0 & mc0 & ac0 & log0 & mc' & ac' & log' &
                       Hd0 & Gmc0 & Gcw0 & Gac0 & Glog0 & Hmc' & Hac' & Hlog')].
    + congruence.
    + rewrite (delete_chore_run payload (Some (document st)) cid d0 dcw0
                 mc0 ac0 log0 mc' ac' log') in Hrun by assumption.
      discriminate.
Qed.

Lemma delete_chore_filters_three_lists_witness :
  exists data',
    delete_chore (JObj [("choreId", JNum 3)]) (Some trash_week)
      = (Ok data', Some data') /\
    completedLog data' = Some (JArr []) /\
    assignedChores data' = Some (JArr []) /\
    users data' = users trash_week.
Proof.
  destruct (delete_chore_filters_three_lists
              (Some trash_week) (JObj [("choreId", JNum 3)]) (JNum 3)
              trash_chores trash_assigned trash_log
              eq_refl eq_refl eq_refl eq_refl)
    as (Hreturns & _ & _).
  destruct Hreturns as (data' & Hrun & _ & Hac & Hlog & Husers & _);
    try (repeat constructor).
  exists data'.
  split; [exact Hrun|]. split; [exact Hlog|]. split; [exact Hac | exact Husers].
Defined.

(** C2 as stated fails on a reachable store: after one [log_chore] of a
    payload without choreId, [delete_chore] of chore 1 raises KeyError
    'choreId' and persists nothing, so masterChores still holds the
    entry with id 1. *)
Lemma delete_chore_raises_and_keeps_the_chore :
  reachable noted_store /\
  delete_chore (JObj [("choreId", JNum 1)]) noted_store
    = (Raise (KeyError "choreId"), noted_store) /\
  masterChores
    (document (serve (DeleteChore (JObj [("choreId", JNum 1)])) noted_store))
    = Some (JArr [
        JObj [("id", JNum 1); ("name", JStr "Washed a dish");
              ("points", JNum 5); ("type", JStr "repeatable")];
        JObj [("id", JNum 2); ("name", JStr "Cleaned cat litter");
              ("points", JNum 20); ("type", JStr "repeatable")]]) /\
  refers_to "id" (JNum 1)
    (JObj [("id", JNum 1); ("name", JStr "Washed a dish");
           ("points", JNum 5); ("type", JStr "repeatable")]) = true.
Proof.
  split; [apply reach_serve, reach_fresh|].
  repeat split; reflexivity.
Qed.

(** C5. For every payload and every store, a second [delete_chore] with
    the same payload answers and persists exactly what the first one did;
    and on a document of the data model in which no masterChores,
    assignedChores or completedLog entry is about choreId, [delete_chore]
    returns and persists the document unchanged. *)
Theorem delete_chore_twice_is_once payload st :
  delete_chore payload (snd (delete_chore payload st))
    = delete_chore payload st
  /\
  (forall cid mc ac log,
      field "choreId" payload = Some cid ->
      masterChores (document st) = Some (JArr mc) ->
      assignedChores (document st) = Some (JArr ac) ->
      completedLog (document st) = Some (JArr log) ->
      Forall (fun c => has_key "id" c = true) mc ->
      Forall (fun e => has_key "choreId" e = true) ac ->
      Forall (fun e => has_key "choreId" e = true) log ->
      Forall (fun c => refers_to "id" cid c = false) mc ->
      Forall (fun e => refers_to "choreId" cid e = false) ac ->
      Forall (fun e => refers_to "choreId" cid e = false) log ->
      delete_chore payload st = (Ok (document st), Some (document st))).
Proof.
  split.
  - destruct (getitem payload "choreId") as [cid|e] eqn:Hp.
    + rewrite (delete_chore_document payload st cid Hp).
      destruct (delete_chore_outcome payload (document st) cid Hp)
        as [(e & He) | (d & dcw & mc & ac & log & mc' & ac' & log' &
                        Hd & Gmc & Gcw & Gac & Glog & Hmc & Hac & Hlog)].
      * rewrite He. exact He.
      * rewrite (delete_chore_run payload (Some (document st)) cid d dcw
                   mc ac log mc' ac' log') by assumption.
        unfold commit at 1 2. simpl snd.
        set (dcw' := Dict.set "completedLog" log'
                       (Dict.set "assignedChores" ac' dcw)).
        set (d' := Dict.set "currentWeek" (JObj dcw')
                     (Dict.set "masterChores" mc' d)).
        assert (Gmc' : Dict.get "masterChores" d' = Some mc')
          by (unfold d'; now autorewrite with dict).
        assert (Gcw' : Dict.get "currentWeek" d' = Some (JObj dcw'))
          by (unfold d'; now autorewrite with dict).
        assert (Gac' : Dict.get "assignedChores" dcw' = Some ac')
          by (unfold dcw'; now autorewrite with dict).
        assert (Glog' : Dict.get "completedLog" dcw' = Some log')
          by (unfold dcw'; now autorewrite with dict).
        rewrite (delete_chore_run payload (Some (JObj d')) cid d' dcw'
                   mc' ac' log' mc' ac' log' Hp eq_refl Gmc' Gcw' Gac' Glog'
                   (without_chore_again _ _ _ _ Hmc)
                   (without_chore_again _ _ _ _ Hac)
                   (without_chore_again _ _ _ _ Hlog)).
        rewrite (DictFacts.set_same "assignedChores" _ _ Gac').
        rewrite (DictFacts.set_same "completedLog" _ _ Glog').
        rewrite (DictFacts.set_same "masterChores" _ _ Gmc').
        rewrite (DictFacts.set_same "currentWeek" _ _ Gcw').
        reflexivity.
    + now rewrite !(delete_chore_early payload _ e Hp).
  - intros cid mc ac log Hp Hmc Hac Hlog Fmc Fac Flog Nmc Nac Nlog.
    apply getitem_field in Hp.
    destruct (document_inv _ _ _ _ Hmc Hac Hlog)
      as (d & dcw & Hd & Gmc & Gcw & Gac & Glog).
    rewrite (delete_chore_run payload st cid d dcw _ _ _ _ _ _
               Hp Hd Gmc Gcw Gac Glog
               (without_chore_list _ _ _ Fmc) (without_chore_list _ _ _ Fac)
               (without_chore_list _ _ _ Flog)).
    rewrite (others_none _ _ _ Nmc), (others_none _ _ _ Nac),
      (others_none _ _ _ Nlog).
    rewrite (DictFacts.set_same "assignedChores" _ _ Gac).
    rewrite (DictFacts.set_same "completedLog" _ _ Glog).
    rewrite (DictFacts.set_same "masterChores" _ _ Gmc).
    rewrite (DictFacts.set_same "currentWeek" _ _ Gcw).
    simpl. now rewrite Hd.
Qed.

Lemma delete_chore_twice_is_once_witness :
  delete_chore (JObj [("choreId", JNum 9)]) (Some trash_week)
    = (Ok trash_week, Some trash_week).
Proof.
  eapply (proj2 (delete_chore_twice_is_once
                   (JObj [("choreId", JNum 9)]) (Some trash_week)));
    [reflexivity | reflexivity | reflexivity | reflexivity | ..];
    repeat constructor.
Defined.

(** C10. [delete_chore] returns only on documents whose completedLog
    entries all have a choreId key; and a store reachable from a fresh
    installation (one [log_chore] of a payload without choreId) holds a
    document on which [delete_chore] raises for every payload, with
    KeyError 'choreId' whatever the choreId in the payload, leaving the
    store as it was. *)
Theorem delete_chore_faults_on_logged_payload :
  (forall payload st data' st' log,
      delete_chore payload st = (Ok data', st') ->
      completedLog (document st) = Some (JArr log) ->
      Forall (fun e => has_key "choreId" e = true) log)
  /\
  reachable noted_store /\
  completedLog (document noted_store)
    = Some (JArr [JObj [("note", JStr "swept")]]) /\
  (forall payload,
      exists e, delete_chore payload noted_store = (Raise e, noted_store)) /\
  (forall payload cid,
      field "choreId" payload = Some cid ->
      delete_chore payload noted_store
        = (Raise (KeyError "choreId"), noted_store)).
Proof.
  assert (Hcid : forall payload cid,
             getitem payload "choreId" = Ok cid ->
             delete_chore payload noted_store
               = (Raise (KeyError "choreId"), noted_store)).
  { intros payload cid Hp. unfold delete_chore.
    unfold mbind at 1, eval at 1. rewrite Hp. rewrite run_body.
    reflexivity. }
  split; [|split; [|split; [|split]]].
  - intros payload st data' st' log Hrun Hlog.
    destruct (getitem payload "choreId") as [cid|e] eqn:Hp.
    + rewrite (delete_chore_document payload st cid Hp) in Hrun.
      destruct (delete_chore_outcome payload (document st) cid Hp)
        as [(e & He) | (d & dcw & mc & ac & log0 & mc' & ac' & log' &
                        Hd & Gmc & Gcw & Gac & Glog & Hmc & Hac & Hlog0)].
      * congruence.
      * rewrite Hd in Hlog. unfold completedLog, week_field in Hlog.
        simpl in Hlog. rewrite Gcw in Hlog. simpl in Hlog.
        assert (log0 = JArr log) by congruence. subst log0.
        apply without_chore_inv in Hlog0 as (items & Hit & HP & _).
        simpl in Hit. now injection Hit as <-.
    + rewrite (delete_chore_early payload st e Hp) in Hrun. discriminate.
  - apply reach_serve, reach_fresh.
  - reflexivity.
  - intros payload. destruct (getitem payload "choreId") as [cid|e] eqn:Hp.
    + eexists. eapply Hcid; eassumption.
    + eexists. apply delete_chore_early; eassumption.
  - intros payload cid Hp. apply getitem_field in Hp. eapply Hcid; eassumption.
Qed.

Lemma delete_chore_faults_on_logged_payload_witness :
  Forall (fun e => has_key "choreId" e = true) trash_log
  /\
  delete_chore (JObj [("choreId", JNum 3)]) noted_store
    = (Raise (KeyError "choreId"), noted_store).
Proof.
  split.
  - eapply (proj1 delete_chore_faults_on_logged_payload
              (JObj [("choreId", JNum 3)]) (Some trash_week));
      reflexivity.
  - eapply (proj2 (proj2 (proj2 (proj2 delete_chore_faults_on_logged_payload))));
      reflexivity.
Defined.

(** ** Python equality is reflexive on everything but NaN *)

Lemma json_nested_ind (P : json -> Prop) :
  P JNull ->
  (forall b, P (JBool b)) ->
  (forall n, P (JNum n)) ->
  (forall f, P (JFloat f)) ->
  (forall s, P (JStr s)) ->
  (forall l, (forall x, In x l -> P x) -> P (JArr l)) ->
  (forall d, (forall k v, In (k, v) d -> P v) -> P (JObj d)) ->
  forall x, P x.
Proof.
  intros HNull HBool HNum HFloat HStr HArr HObj.
  fix IH 1.
  intros [|b|n|f|s|l|d];
    [exact HNull | apply HBool | apply HNum | apply HFloat | apply HStr | | ].
  - apply HArr. induction l as [|y l IHl]; intros x Hx.
    + destruct Hx.
    + destruct Hx as [<-|Hin]; [apply IH | exact (IHl x Hin)].
  - apply HObj. induction d as [|[k' w] d IHd]; intros k v Hin.
    + destruct Hin.
    + destruct Hin as [E|Hin].
      * injection E as _ <-. apply IH.
      * exact (IHd k v Hin).
Qed.

Lemma no_dup_get k v d :
  no_dup (Dict.keys d) = true -> In (k, v) d -> Dict.get k d = Some v.
Proof.
  induction d as [|[k' w] d IH]; simpl; [contradiction|].
  intros Hnd [E|Hin].
  - injection E as -> ->. now rewrite String.eqb_refl.
  - apply andb_true_iff in Hnd as [Hk' Hnd].
    destruct (String.eqb_spec k k') as [->|]; [|auto].
    exfalso. apply negb_true_iff in Hk'.
    assert (existsb (String.eqb k') (Dict.keys d) = true); [|congruence].
    apply existsb_exists. exists k'. split; [|apply String.eqb_refl].
    change k' with (fst (k', v)). now apply in_map.
Qed.

Lemma list_eq_refl (eq : json -> json -> bool) l :
  (forall x, In x l -> eq x x = true) -> list_eq eq l l = true.
Proof.
  induction l as [|x l IH]; simpl; intros H; [reflexivity|].
  rewrite H by now left. apply IH. intros y Hy. apply H. now right.
Qed.

Lemma dict_sub_refl (eq : json -> json -> bool) fx fy :
  (forall k v, In (k, v) fx -> Dict.get k fy = Some v /\ eq v v = true) ->
  dict_sub eq fx fy = true.
Proof.
  induction fx as [|[k v] fx IH]; simpl; intros H; [reflexivity|].
  destruct (H k v) as [-> ->]; [now left|]. apply IH.
  intros k' v' Hin. apply H. now right.
Qed.

Lemma float_eq_refl f : f <> FNan -> float_eq f f = true.
Proof.
  destruct f as [|s|s m e]; simpl; intros H.
  - congruence.
  - now destruct s.
  - apply Z.eqb_refl.
Qed.

(** Inside a list or a dict every well-formed value equals itself. *)
Lemma item_eq_refl x : json_wf x = true -> item_eq x x = true.
Proof.
  unfold item_eq.
  induction x as [|b|n|f|s|l IH|d IH] using json_nested_ind; simpl;
    intros Hwf.
  - reflexivity.
  - now destruct b.
  - apply Z.eqb_refl.
  - destruct f as [|s|s m e]; [reflexivity| |]; simpl.
    + now destruct s.
    + apply Z.eqb_refl.
  - apply String.eqb_refl.
  - apply list_eq_refl. intros x Hx. apply IH; [assumption|].
    rewrite forallb_forall in Hwf. auto.
  - apply andb_true_iff in Hwf as [Hnd Hwf]. rewrite Nat.eqb_refl. simpl.
    apply dict_sub_refl. intros k v Hin. split.
    + now apply no_dup_get.
    + eapply IH; [eassumption|]. rewrite forallb_forall in Hwf.
      apply (Hwf (k, v) Hin).
Qed.

(** Python's [==] holds between a value and itself for every well-formed
    value but NaN: the hypotheses [py_eq v v = true] below exclude a NaN
    choreId, userId or id, and nothing else. *)
Lemma py_eq_refl x : json_wf x = true -> is_nan x = false -> py_eq x x = true.
Proof.
  intros Hwf Hnan. pose proof (item_eq_refl x Hwf) as H.
  unfold item_eq in H. now rewrite Hnan in H.
Qed.

Lemma py_eq_nan x : is_nan x = true -> forall y, py_eq x y = false.
Proof.
  destruct x as [| | |[| |]| | |]; try discriminate. intros _ y.
  now destruct y.
Qed.

(** ** Update Weekly Chore *)

Lemma is_entry_inv e :
  is_entry e = true ->
  exists de a b,
    e = JObj de /\ Dict.get "choreId" de = Some a /\
    Dict.get "userId" de = Some b.
Proof.
  unfold is_entry, has_key. destruct e; simpl; try discriminate.
  destruct (Dict.get "choreId" fields) as [a|] eqn:Ha; [|discriminate].
  destruct (Dict.get "userId" fields) as [b|] eqn:Hb; [|discriminate].
  intros _. exists fields, a, b. auto.
Qed.

(** The loop condition on a well-formed entry, for any payload. *)
Lemma same_pair_eval e payload a b :
  field "choreId" e = Some a ->
  field "userId" e = Some b ->
  same_pair e payload =
  (cid <- getitem payload "choreId" ;;
   if py_eq a cid
   then uid <- getitem payload "userId" ;; Ok (py_eq b uid)
   else Ok false).
Proof.
  intros Ha Hb. apply getitem_field in Ha, Hb.
  unfold same_pair, and_then. rewrite Ha, Hb. simpl.
  destruct (getitem payload "choreId"); reflexivity.
Qed.

Section GoodPayload.

Variables payload cid uid c : json.
Hypothesis Hcid : field "choreId" payload = Some cid.
Hypothesis Huid : field "userId" payload = Some uid.
Hypothesis Hc : field "completed" payload = Some c.

Lemma same_pair_good e :
  is_entry e = true -> same_pair e payload = Ok (for_pair cid uid e).
Proof.
  intros He. apply is_entry_inv in He as (de & a & b & -> & Ha & Hb).
  rewrite (same_pair_eval _ _ a b) by assumption.
  apply getitem_field in Hcid, Huid. rewrite Hcid, Huid. simpl.
  unfold for_pair, refers_to. simpl. rewrite Ha, Hb.
  now destruct (py_eq a cid).
Qed.

Lemma for_first_good l :
  Forall (fun e => is_entry e = true) l ->
  for_first (fun chore => same_pair chore payload)
    (fun chore => v <- getitem payload "completed" ;;
                  setitem chore "completed" v) l
  = Ok (update_first (for_pair cid uid) (with_field "completed" c) l).
Proof.
  induction 1 as [|e l He _ IH]; simpl; [reflexivity|].
  rewrite (same_pair_good e He). simpl.
  destruct (for_pair cid uid e).
  - apply getitem_field in Hc. rewrite Hc. simpl.
    apply is_entry_inv in He as (de & _ & _ & -> & _). reflexivity.
  - now rewrite IH.
Qed.

Lemma any_m_good l :
  Forall (fun e => is_entry e = true) l ->
  any_m (fun log => same_pair log payload) l
  = Ok (existsb (for_pair cid uid) l).
Proof.
  induction 1 as [|e l He _ IH]; simpl; [reflexivity|].
  rewrite (same_pair_good e He). simpl. now destruct (for_pair cid uid e).
Qed.

Lemma filter_m_good l :
  Forall (fun e => is_entry e = true) l ->
  filter_m (fun log => hit <- same_pair log payload ;; Ok (negb hit)) l
  = Ok (other_pairs cid uid l).
Proof.
  induction 1 as [|e l He _ IH]; simpl; [reflexivity|].
  rewrite (same_pair_good e He), IH. simpl.
  now destruct (for_pair cid uid e).
Qed.

Lemma update_weekly_chore_run st d dcw ac log :
  document st = JObj d ->
  Dict.get "currentWeek" d = Some (JObj dcw) ->
  Dict.get "assignedChores" dcw = Some (JArr ac) ->
  Dict.get "completedLog" dcw = Some (JArr log) ->
  Forall (fun e => is_entry e = true) ac ->
  Forall (fun e => is_entry e = true) log ->
  update_weekly_chore payload st =
  commit st (Ok (JObj (Dict.set "currentWeek"
    (JObj (Dict.set "completedLog" (JArr (log_after payload cid uid c log))
       (Dict.set "assignedChores"
          (JArr (update_first (for_pair cid uid)
                   (with_field "completed" c) ac)) dcw))) d))).
Proof.
  intros Hd Gcw Gac Glog Fac Flog.
  unfold update_weekly_chore. rewrite run_body. f_equal. rewrite Hd.
  pose proof (any_m_good log Flog) as Eany.
  pose proof (filter_m_good log Flog) as Efilter.
  pose proof Hcid as Pcid. pose proof Huid as Puid. pose proof Hc as Pc.
  apply getitem_field in Pcid, Puid, Pc.
  destruct (field_inv _ _ _ Hcid) as (pd & Hpd & _).
  unfold log_after, new_log_entry, field_or.
  simpl. rewrite Gcw. simpl. rewrite Gac. simpl.
  rewrite (for_first_good ac Fac).
  crunch. destruct (truthy c); crunch.
  - destruct (existsb (for_pair cid uid) log); crunch.
    + rewrite (DictFacts.set_same "completedLog" (JArr log))
        by (now autorewrite with dict).
      reflexivity.
    + rewrite Hpd. crunch. reflexivity.
  - reflexivity.
Qed.

End GoodPayload.

Lemma update_first_cases g h l :
  (exists pre x post,
      l = pre ++ x :: post /\
      Forall (fun e => g e = false) pre /\
      g x = true /\
      update_first g h l = pre ++ h x :: post)
  \/
  (Forall (fun e => g e = false) l /\ update_first g h l = l).
Proof.
  induction l as [|y l IH]; simpl.
  - right. split; [constructor | reflexivity].
  - destruct (g y) eqn:Hy.
    + left. exists [], y, l. repeat split; [constructor | assumption].
    + destruct IH as [(pre & x & post & -> & Hpre & Hx & ->) | [Hnone ->]].
      * left. exists (y :: pre), x, post.
        repeat split; [constructor; assumption | assumption].
      * right. split; [constructor; assumption | reflexivity].
Qed.

Lemma with_field_sets k v x :
  is_obj x = true ->
  field k (with_field k v x) = Some v /\
  unchanged_but [k] x (with_field k v x).
Proof.
  destruct x; simpl; try discriminate. intros _. split.
  - apply DictFacts.get_set_same.
  - apply unchanged_but_set. now left.
Qed.

Lemma is_entry_is_obj e : is_entry e = true -> is_obj e = true.
Proof. intros H. now apply is_entry_inv in H as (de & _ & _ & -> & _). Qed.

Lemma is_entry_with_completed c e :
  is_entry e = true -> is_entry (with_field "completed" c e) = true.
Proof.
  intros H. apply is_entry_inv in H as (de & a & b & -> & Ha & Hb).
  unfold is_entry, has_key. simpl. autorewrite with dict. now rewrite Ha, Hb.
Qed.

Lemma update_first_entries g c l :
  Forall (fun e => is_entry e = true) l ->
  Forall (fun e => is_entry e = true)
    (update_first g (with_field "completed" c) l).
Proof.
  induction 1 as [|e l He Hl IH]; simpl; [constructor|].
  destruct (g e); constructor; auto using is_entry_with_completed.
Qed.

Lemma other_pairs_none cid uid l :
  Forall (fun e => for_pair cid uid e = false) (other_pairs cid uid l).
Proof.
  unfold other_pairs. apply Forall_forall. intros e He.
  apply filter_In in He as [_ He]. now apply negb_true_iff in He.
Qed.

Lemma missing_key k x :
  is_obj x = true -> has_key k x = false -> getitem x k = Raise (KeyError k).
Proof.
  unfold has_key. destruct x; simpl; try discriminate. intros _.
  now destruct (Dict.get k fields).
Qed.

(** [update_weekly_chore] on a document of the data model, with the
    dictionary plumbing evaluated: what is left are the three loops and
    the reads of the payload. *)
Lemma update_weekly_chore_shaped payload st d dcw ac log :
  is_obj payload = true ->
  document st = JObj d ->
  Dict.get "currentWeek" d = Some (JObj dcw) ->
  Dict.get "assignedChores" dcw = Some (JArr ac) ->
  Dict.get "completedLog" dcw = Some (JArr log) ->
  update_weekly_chore payload st =
  commit st (
    chores <- for_first (fun chore => same_pair chore payload)
                (fun chore => v <- getitem payload "completed" ;;
                              setitem chore "completed" v) ac ;;
    let week logs :=
      JObj (Dict.set "currentWeek"
              (JObj (Dict.set "completedLog" (JArr logs)
                       (Dict.set "assignedChores" (JArr chores) dcw))) d) in
    completed <- getitem payload "completed" ;;
    if truthy completed then
      log_exists <- any_m (fun e => same_pair e payload) log ;;
      if negb log_exists then
        cid <- getitem payload "choreId" ;;
        uid <- getitem payload "userId" ;;
        Ok (week (log ++ [new_log_entry payload cid uid]))
      else Ok (week log)
    else
      kept <- filter_m (fun e => hit <- same_pair e payload ;; Ok (negb hit))
                log ;;
      Ok (week kept)).
Proof.
  intros Hobj Hd Gcw Gac Glog.
  unfold update_weekly_chore. rewrite run_body. f_equal. rewrite Hd.
  simpl. rewrite Gcw. simpl. rewrite Gac. simpl.
  destruct (for_first _ _ ac) as [chores|]; [|reflexivity]. simpl.
  destruct (getitem payload "completed") as [c|]; [|reflexivity]. simpl.
  autorewrite with dict. simpl. autorewrite with dict. rewrite Glog. simpl.
  destruct (truthy c).
  - destruct (any_m _ log) as [[|]|]; simpl; [| |reflexivity].
    + rewrite (DictFacts.set_same "completedLog" (JArr log))
        by (now autorewrite with dict).
      reflexivity.
    + destruct payload as [| | | | | |pd]; try discriminate.
      unfold new_log_entry, field_or. simpl.
      destruct (Dict.get "choreId" pd) as [cid|]; [|reflexivity]. simpl.
      destruct (Dict.get "userId" pd) as [uid|]; [|reflexivity]. simpl.
      autorewrite with dict. reflexivity.
  - destruct (filter_m _ log) as [kept|]; [|reflexivity]. simpl.
    autorewrite with dict. reflexivity.
Qed.


(** [update_weekly_chore] raises only without writing. *)
Lemma update_weekly_chore_raise payload st e st' :
  update_weekly_chore payload st = (Raise e, st') -> st' = Some (document st).
Proof.
  unfold update_weekly_chore. rewrite run_body.
  match goal with |- commit _ ?r = _ -> _ => destruct r end; simpl;
    congruence.
Qed.

Lemma for_pair_is_obj cid uid x : for_pair cid uid x = true -> is_obj x = true.
Proof.
  unfold for_pair, refers_to. destruct x; simpl; try discriminate. reflexivity.
Qed.

Lemma new_log_entry_is_entry payload cid uid :
  is_entry (new_log_entry payload cid uid) = true.
Proof. reflexivity. Qed.

Lemma new_log_entry_for_pair payload cid uid :
  py_eq cid cid = true -> py_eq uid uid = true ->
  for_pair cid uid (new_log_entry payload cid uid) = true.
Proof.
  intros Hcid Huid. unfold for_pair, refers_to. simpl.
  now rewrite Hcid, Huid.
Qed.

(** Nothing is for a pair whose choreId is NaN. *)
Lemma for_pair_nan uid e : for_pair (JFloat FNan) uid e = false.
Proof.
  unfold for_pair, refers_to. destruct (field "choreId" e) as [v|];
    [|reflexivity].
  now destruct v as [| | |[| |]| | |].
Qed.

Lemma existsb_count (g : json -> bool) l :
  existsb g l = negb (Nat.eqb (List.length (filter g l)) 0).
Proof.
  induction l as [|x l IH]; simpl; [reflexivity|].
  destruct (g x); simpl; auto.
Qed.

Lemma count_for_app cid uid l l' :
  count_for cid uid (l ++ l') = (count_for cid uid l + count_for cid uid l')%nat.
Proof. unfold count_for. now rewrite filter_app, length_app. Qed.

(** The number of entries for the pair once a true completed was
    recorded. *)
Lemma count_for_logged payload cid uid log :
  py_eq cid cid = true -> py_eq uid uid = true ->
  count_for cid uid
    (if existsb (for_pair cid uid) log
     then log
     else log ++ [new_log_entry payload cid uid])
  = Nat.max 1 (count_for cid uid log).
Proof.
  intros Hcid Huid. rewrite existsb_count. fold (count_for cid uid log).
  destruct (Nat.eqb_spec (count_for cid uid log) 0) as [E|E]; simpl negb; cbv iota.
  - rewrite count_for_app, E. unfold count_for at 1. simpl filter.
    rewrite new_log_entry_for_pair by assumption. reflexivity.
  - lia.
Qed.

Lemma log_after_entries payload cid uid c log :
  Forall (fun e => is_entry e = true) log ->
  Forall (fun e => is_entry e = true) (log_after payload cid uid c log).
Proof.
  intros Flog. unfold log_after.
  destruct (truthy c); [|now apply Forall_filter].
  destruct (existsb (for_pair cid uid) log); [assumption|].
  apply Forall_app. split; [assumption|]. repeat constructor.
Qed.

Lemma log_after_idem payload cid uid c log :
  py_eq cid cid = true -> py_eq uid uid = true ->
  log_after payload cid uid c (log_after payload cid uid c log)
  = log_after payload cid uid c log.
Proof.
  intros Wcid Wuid. unfold log_after. destruct (truthy c).
  - destruct (existsb (for_pair cid uid) log) eqn:E; [now rewrite E|].
    rewrite existsb_app. simpl.
    rewrite new_log_entry_for_pair by assumption.
    now rewrite orb_true_r.
  - unfold other_pairs. apply filter_idem.
Qed.

Lemma week_field_of_set k d w :
  week_field k (JObj (Dict.set "currentWeek" w d)) = field k w.
Proof. unfold week_field. simpl. now rewrite DictFacts.get_set_same. Qed.

(** What the three loops computed when they went through, whatever the
    entries they met. *)
Section ReturnedLoops.

Variables payload cid uid c : json.
Hypothesis Hcid : field "choreId" payload = Some cid.
Hypothesis Huid : field "userId" payload = Some uid.
Hypothesis Hc : field "completed" payload = Some c.

Lemma same_pair_ok e b :
  same_pair e payload = Ok b -> b = for_pair cid uid e.
Proof.
  pose proof Hcid as Pcid. pose proof Huid as Puid.
  apply getitem_field in Pcid, Puid.
  unfold same_pair, and_then, for_pair, refers_to.
  destruct (getitem e "choreId") as [a|] eqn:Ga; [|discriminate].
  apply getitem_field in Ga. rewrite Ga, Pcid. simpl.
  destruct (py_eq a cid); simpl; [|now intros [= <-]].
  destruct (getitem e "userId") as [b'|] eqn:Gb; [|discriminate].
  apply getitem_field in Gb. rewrite Gb, Puid. simpl. now intros [= <-].
Qed.

Lemma for_first_ok l l' :
  for_first (fun chore => same_pair chore payload)
    (fun chore => v <- getitem payload "completed" ;;
                  setitem chore "completed" v) l = Ok l' ->
  l' = update_first (for_pair cid uid) (with_field "completed" c) l.
Proof.
  pose proof Hc as Pc. apply getitem_field in Pc.
  revert l'. induction l as [|x l IH]; simpl; intros l' H.
  - now injection H as <-.
  - destruct (same_pair x payload) as [b|] eqn:E; [|discriminate].
    apply same_pair_ok in E. subst b. simpl in H.
    destruct (for_pair cid uid x).
    + rewrite Pc in H. simpl in H.
      destruct x; try discriminate. simpl in H. now injection H as <-.
    + destruct (for_first _ _ l) as [rest|]; [|discriminate].
      simpl in H. injection H as <-. f_equal. now apply IH.
Qed.

Lemma any_m_ok l r :
  any_m (fun e => same_pair e payload) l = Ok r ->
  r = existsb (for_pair cid uid) l.
Proof.
  induction l as [|x l IH]; simpl; intros H.
  - now injection H as <-.
  - destruct (same_pair x payload) as [b|] eqn:E; [|discriminate].
    apply same_pair_ok in E. subst b. simpl in H.
    destruct (for_pair cid uid x); simpl; [now injection H as <-|].
    now apply IH.
Qed.

Lemma filter_m_ok l kept :
  filter_m (fun e => hit <- same_pair e payload ;; Ok (negb hit)) l
    = Ok kept ->
  kept = other_pairs cid uid l.
Proof.
  unfold other_pairs.
  revert kept. induction l as [|x l IH]; simpl; intros kept H.
  - now injection H as <-.
  - destruct (same_pair x payload) as [b|] eqn:E; [|discriminate].
    apply same_pair_ok in E. subst b. simpl in H.
    destruct (filter_m _ l) as [rest|]; [|discriminate]. simpl in H.
    injection H as <-. rewrite (IH rest eq_refl).
    now destruct (for_pair cid uid x).
Qed.

(** The document that [update_weekly_chore] returns, when it returns. *)
Lemma update_weekly_chore_returned st d dcw ac log data' st' :
  document st = JObj d ->
  Dict.get "currentWeek" d = Some (JObj dcw) ->
  Dict.get "assignedChores" dcw = Some (JArr ac) ->
  Dict.get "completedLog" dcw = Some (JArr log) ->
  update_weekly_chore payload st = (Ok data', st') ->
  st' = Some data' /\
  data' = JObj (Dict.set "currentWeek"
    (JObj (Dict.set "completedLog" (JArr (log_after payload cid uid c log))
       (Dict.set "assignedChores"
          (JArr (update_first (for_pair cid uid)
                   (with_field "completed" c) ac)) dcw))) d).
Proof.
  intros Hd Gcw Gac Glog.
  pose proof Hcid as Pcid. pose proof Huid as Puid. pose proof Hc as Pc.
  apply getitem_field in Pcid, Puid, Pc.
  destruct (field_inv _ _ _ Hc) as (pd & Hpd & _).
  rewrite (update_weekly_chore_shaped payload st d dcw ac log)
    by (assumption || (rewrite Hpd; reflexivity)).
  destruct (for_first _ _ ac) as [chores|] eqn:Eloop; [|discriminate].
  apply for_first_ok in Eloop. subst chores. simpl.
  rewrite Pc. simpl. unfold log_after.
  destruct (truthy c).
  - destruct (any_m _ log) as [r|] eqn:Eany; [|discriminate].
    apply any_m_ok in Eany. subst r. simpl.
    destruct (existsb (for_pair cid uid) log); simpl.
    + intros [= <- <-]. auto.
    + rewrite Pcid, Puid. simpl. intros [= <- <-]. auto.
  - destruct (filter_m _ log) as [kept|] eqn:Efilter; [|discriminate].
    apply filter_m_ok in Efilter. subst kept. simpl.
    intros [= <- <-]. auto.
Qed.

End ReturnedLoops.

(** The fields of a document read back from the three assignments. *)
Lemma document_read_back data d dcw log ac :
  data = JObj (Dict.set "currentWeek"
    (JObj (Dict.set "completedLog" (JArr log)
       (Dict.set "assignedChores" (JArr ac) dcw))) d) ->
  completedLog data = Some (JArr log) /\
  assignedChores data = Some (JArr ac).
Proof.
  intros ->. unfold completedLog, assignedChores.
  rewrite !week_field_of_set. simpl. now autorewrite with dict.
Qed.

(** C7, as the code has it. For every document whose assignedChores and
    completedLog are lists and every payload with choreId, userId and
    completed: whenever [update_weekly_chore] returns, it returns and
    persists a document in whose assignedChores the first entry for the
    payload's (choreId, userId) pair has its completed field set to the
    payload's completed value, its other fields unchanged, and all other
    entries are unchanged; when no entry is for the pair, the
    assignedChores list is unchanged (no error).  It returns at least
    whenever every assignedChores and completedLog entry has a choreId
    and a userId.  When it raises instead (an entry that lacks such a
    key was read), nothing is persisted, the in-memory change of the
    completed field included: the document stays as it was. *)
Theorem update_weekly_chore_marks_first_match st payload cid uid c ac log :
  field "choreId" payload = Some cid ->
  field "userId" payload = Some uid ->
  field "completed" payload = Some c ->
  assignedChores (document st) = Some (JArr ac) ->
  completedLog (document st) = Some (JArr log) ->
  (Forall (fun e => is_entry e = true) ac ->
   Forall (fun e => is_entry e = true) log ->
   exists data', update_weekly_chore payload st = (Ok data', Some data')) /\
  (forall data' st',
      update_weekly_chore payload st = (Ok data', st') ->
      st' = Some data' /\
      exists ac',
        assignedChores data' = Some (JArr ac') /\
        ((exists pre x x' post,
             ac = pre ++ x :: post /\
             Forall (fun e => for_pair cid uid e = false) pre /\
             for_pair cid uid x = true /\
             ac' = pre ++ x' :: post /\
             field "completed" x' = Some c /\
             unchanged_but ["completed"] x x')
         \/
         (Forall (fun e => for_pair cid uid e = false) ac /\ ac' = ac))) /\
  (forall e st',
      update_weekly_chore payload st = (Raise e, st') ->
      st' = Some (document st)).
Proof.
  intros Hcid Huid Hc Hac Hlog.
  apply week_field_inv in Hac as (d & dcw & Hd & Gcw & Gac).
  pose proof Hlog as Glog. rewrite Hd in Glog.
  unfold completedLog, week_field in Glog. simpl in Glog.
  rewrite Gcw in Glog. simpl in Glog.
  split; [|split].
  - intros Fac Flog. eexists.
    rewrite (update_weekly_chore_run payload cid uid c Hcid Huid Hc
               st d dcw ac log Hd Gcw Gac Glog Fac Flog).
    reflexivity.
  - intros data' st' Hrun.
    destruct (update_weekly_chore_returned payload cid uid c Hcid Huid Hc
                st d dcw ac log data' st' Hd Gcw Gac Glog Hrun)
      as [Hst' Hdata'].
    split; [exact Hst'|].
    destruct (document_read_back _ _ _ _ _ Hdata') as [_ Hac'].
    exists (update_first (for_pair cid uid) (with_field "completed" c) ac).
    split; [exact Hac'|].
    destruct (update_first_cases (for_pair cid uid)
                (with_field "completed" c) ac)
      as [(pre & x & post & Hsplit & Hpre & Hx & Hupd) | [Hnone Hupd]].
    + left. exists pre, x, (with_field "completed" c x), post.
      destruct (with_field_sets "completed" c x (for_pair_is_obj _ _ _ Hx)).
      auto 7.
    + right. auto.
  - intros e st'. apply update_weekly_chore_raise.
Qed.

Lemma update_weekly_chore_marks_first_match_witness :
  exists data' ac',
    update_weekly_chore untick (Some trash_week) = (Ok data', Some data') /\
    assignedChores data' = Some (JArr ac') /\
    ((exists pre x x' post,
         trash_assigned = pre ++ x :: post /\
         Forall (fun e => for_pair (JNum 3) (JNum 1) e = false) pre /\
         for_pair (JNum 3) (JNum 1) x = true /\
         ac' = pre ++ x' :: post /\
         field "completed" x' = Some (JBool false) /\
         unchanged_but ["completed"] x x')
     \/
     (Forall (fun e => for_pair (JNum 3) (JNum 1) e = false) trash_assigned /\
      ac' = trash_assigned)).
Proof.
  destruct (update_weekly_chore_marks_first_match (Some trash_week) untick
              (JNum 3) (JNum 1) (JBool false) trash_assigned trash_log
              eq_refl eq_refl eq_refl eq_refl eq_refl)
    as (Hreturns & Heffect & _).
  destruct Hreturns as (data' & Hrun); try (repeat constructor).
  destruct (Heffect data' _ Hrun) as (_ & ac' & Hac' & Hcases).
  exists data', ac'.
  split; [exact Hrun|]. split; [exact Hac' | exact Hcases].
Defined.

(** C7 as stated fails on a reachable store: chore 3 is assigned to user
    1 and the log holds a payload without choreId; ticking the chore
    raises KeyError 'choreId' after the in-memory assignment, and the
    persisted AssignedChore keeps completed false. *)
Lemma update_weekly_chore_raises_and_keeps_row :
  reachable noted_todo_store /\
  update_weekly_chore tick noted_todo_store
    = (Raise (KeyError "choreId"), noted_todo_store) /\
  assignedChores
    (document (serve (UpdateWeeklyChore tick) noted_todo_store))
    = Some (JArr [JObj [("choreId", JNum 3); ("userId", JNum 1);
                        ("completed", JBool false)]]).
Proof.
  split; [apply reach_serve, reach_serve, reach_fresh|].
  split; reflexivity.
Qed.

(** C6, as the code has it. For every document whose assignedChores and
    completedLog are lists and every payload with choreId, userId and a
    false completed: whenever [update_weekly_chore] returns, it returns
    and persists a document whose completedLog is the prior log without
    the entries for the payload's (choreId, userId) pair, the others in
    their prior order, so that no entry for the pair remains.  It
    returns at least whenever every assignedChores and completedLog
    entry has a choreId and a userId.  When it raises instead (an entry
    that lacks such a key was read), nothing is removed: the document
    stays as it was. *)
Theorem update_weekly_chore_uncompleted_drops_pair
  st payload cid uid c ac log :
  field "choreId" payload = Some cid ->
  field "userId" payload = Some uid ->
  field "completed" payload = Some c ->
  truthy c = false ->
  assignedChores (document st) = Some (JArr ac) ->
  completedLog (document st) = Some (JArr log) ->
  (Forall (fun e => is_entry e = true) ac ->
   Forall (fun e => is_entry e = true) log ->
   exists data', update_weekly_chore payload st = (Ok data', Some data')) /\
  (forall data' st',
      update_weekly_chore payload st = (Ok data', st') ->
      st' = Some data' /\
      exists log',
        completedLog data' = Some (JArr log') /\
        log' = filter (fun e => negb (for_pair cid uid e)) log /\
        Forall (fun e => for_pair cid uid e = false) log') /\
  (forall e st',
      update_weekly_chore payload st = (Raise e, st') ->
      st' = Some (document st)).
Proof.
  intros Hcid Huid Hc Hfalse Hac Hlog.
  apply week_field_inv in Hac as (d & dcw & Hd & Gcw & Gac).
  pose proof Hlog as Glog. rewrite Hd in Glog.
  unfold completedLog, week_field in Glog. simpl in Glog.
  rewrite Gcw in Glog. simpl in Glog.
  split; [|split].
  - intros Fac Flog. eexists.
    rewrite (update_weekly_chore_run payload cid uid c Hcid Huid Hc
               st d dcw ac log Hd Gcw Gac Glog Fac Flog).
    reflexivity.
  - intros data' st' Hrun.
    destruct (update_weekly_chore_returned payload cid uid c Hcid Huid Hc
                st d dcw ac log data' st' Hd Gcw Gac Glog Hrun)
      as [Hst' Hdata'].
    split; [exact Hst'|].
    destruct (document_read_back _ _ _ _ _ Hdata') as [Hlog' _].
    unfold log_after in Hlog'. rewrite Hfalse in Hlog'.
    exists (other_pairs cid uid log).
    split; [exact Hlog'|]. split; [reflexivity|]. apply other_pairs_none.
  - intros e st'. apply update_weekly_chore_raise.
Qed.

Lemma update_weekly_chore_uncompleted_drops_pair_witness :
  exists data' log',
    update_weekly_chore untick (Some trash_week) = (Ok data', Some data') /\
    completedLog data' = Some (JArr log') /\
    log' = filter (fun e => negb (for_pair (JNum 3) (JNum 1) e)) trash_log /\
    Forall (fun e => for_pair (JNum 3) (JNum 1) e = false) log'.
Proof.
  destruct (update_weekly_chore_uncompleted_drops_pair (Some trash_week)
              untick (JNum 3) (JNum 1) (JBool false) trash_assigned trash_log
              eq_refl eq_refl eq_refl eq_refl eq_refl eq_refl)
    as (Hreturns & Heffect & _).
  destruct Hreturns as (data' & Hrun); try (repeat constructor).
  destruct (Heffect data' _ Hrun) as (_ & log' & Hlog' & Hfilter & Hnone).
  exists data', log'.
  split; [exact Hrun|]. split; [exact Hlog'|].
  split; [exact Hfilter | exact Hnone].
Defined.

(** C6 as stated fails on a reachable store: the log holds the entry for
    the pair (3, 1) and a payload without choreId; unticking the pair
    raises KeyError 'choreId' and the entry for (3, 1) stays in the
    persisted log. *)
Lemma update_weekly_chore_raises_and_keeps_entry :
  reachable noted_trash_store /\
  update_weekly_chore untick noted_trash_store
    = (Raise (KeyError "choreId"), noted_trash_store) /\
  completedLog
    (document (serve (UpdateWeeklyChore untick) noted_trash_store))
    = Some (JArr (trash_log ++ [JObj [("note", JStr "swept")]])) /\
  count_for (JNum 3) (JNum 1) (trash_log ++ [JObj [("note", JStr "swept")]])
    = 1%nat.
Proof.
  split; [apply reach_serve, trash_week_reachable|].
  repeat split; reflexivity.
Qed.

(** C1, as the code has it. For every document whose assignedChores and
    completedLog are lists and every payload with choreId, userId and a
    true completed: whenever [update_weekly_chore] returns, it returns
    and persists a document whose completedLog is the prior log followed
    by the one new entry {logId: the payload's logId if present, else
    choreId; choreId; userId; timestamp: the payload's timestamp if
    present, else null} when no prior entry is for the payload's
    (choreId, userId) pair, and is the prior log unchanged when some
    prior entry is for the pair, whatever its logId.  It returns at
    least whenever every assignedChores and completedLog entry has a
    choreId and a userId; when it raises instead, nothing is logged and
    the document stays as it was.  When choreId and userId each equal
    themselves under [==] (every value but NaN does), a second
    application of the same payload, whenever it returns, leaves that
    log as it is (and it returns at least whenever the entries have
    their keys); the log then holds as many entries for the pair as the
    prior log did, and one if the prior log held none. *)
Theorem update_weekly_chore_completed_logs_unless_logged
  st payload cid uid c ac log :
  field "choreId" payload = Some cid ->
  field "userId" payload = Some uid ->
  field "completed" payload = Some c ->
  truthy c = true ->
  assignedChores (document st) = Some (JArr ac) ->
  completedLog (document st) = Some (JArr log) ->
  (Forall (fun e => is_entry e = true) ac ->
   Forall (fun e => is_entry e = true) log ->
   exists data1, update_weekly_chore payload st = (Ok data1, Some data1)) /\
  (forall data1 st1,
      update_weekly_chore payload st = (Ok data1, st1) ->
      st1 = Some data1 /\
      exists log1,
        completedLog data1 = Some (JArr log1) /\
        log1 = (if existsb (for_pair cid uid) log
                then log
                else log ++ [new_log_entry payload cid uid]) /\
        (py_eq cid cid = true -> py_eq uid uid = true ->
         count_for cid uid log1 = Nat.max 1 (count_for cid uid log) /\
         (forall data2 st2,
             update_weekly_chore payload (Some data1) = (Ok data2, st2) ->
             st2 = Some data2 /\ completedLog data2 = Some (JArr log1)) /\
         (Forall (fun e => is_entry e = true) ac ->
          Forall (fun e => is_entry e = true) log ->
          exists data2,
            update_weekly_chore payload (Some data1)
            = (Ok data2, Some data2)))) /\
  (forall e st',
      update_weekly_chore payload st = (Raise e, st') ->
      st' = Some (document st)).
Proof.
  intros Hcid Huid Hc Htrue Hac Hlog.
  apply week_field_inv in Hac as (d & dcw & Hd & Gcw & Gac).
  pose proof Hlog as Glog. rewrite Hd in Glog.
  unfold completedLog, week_field in Glog. simpl in Glog.
  rewrite Gcw in Glog. simpl in Glog.
  split; [|split].
  - intros Fac Flog. eexists.
    rewrite (update_weekly_chore_run payload cid uid c Hcid Huid Hc
               st d dcw ac log Hd Gcw Gac Glog Fac Flog).
    reflexivity.
  - intros data1 st1 Hrun.
    destruct (update_weekly_chore_returned payload cid uid c Hcid Huid Hc
                st d dcw ac log data1 st1 Hd Gcw Gac Glog Hrun)
      as [Hst1 Hdata1].
    split; [exact Hst1|].
    destruct (document_read_back _ _ _ _ _ Hdata1) as [Hlog1 _].
    set (log1 := log_after payload cid uid c log) in *.
    set (ac1 := update_first (for_pair cid uid) (with_field "completed" c) ac)
      in *.
    set (dcw1 := Dict.set "completedLog" (JArr log1)
                   (Dict.set "assignedChores" (JArr ac1) dcw)) in *.
    set (d1 := Dict.set "currentWeek" (JObj dcw1) d) in *.
    assert (Elog1 : log1 = (if existsb (for_pair cid uid) log
                            then log
                            else log ++ [new_log_entry payload cid uid]))
      by (unfold log1, log_after; now rewrite Htrue).
    assert (Gcw1 : Dict.get "currentWeek" d1 = Some (JObj dcw1))
      by (unfold d1; now autorewrite with dict).
    assert (Gac1 : Dict.get "assignedChores" dcw1 = Some (JArr ac1))
      by (unfold dcw1; now autorewrite with dict).
    assert (Glog1 : Dict.get "completedLog" dcw1 = Some (JArr log1))
      by (unfold dcw1; now autorewrite with dict).
    exists log1. split; [exact Hlog1|]. split; [exact Elog1|].
    intros Rcid Ruid. split; [|split].
    + rewrite Elog1. now apply count_for_logged.
    + intros data2 st2 Hrun2.
      destruct (update_weekly_chore_returned payload cid uid c Hcid Huid Hc
                  (Some data1) d1 dcw1 ac1 log1 data2 st2
                  Hdata1 Gcw1 Gac1 Glog1 Hrun2)
        as [Hst2 Hdata2].
      split; [exact Hst2|].
      destruct (document_read_back _ _ _ _ _ Hdata2) as [Hlog2 _].
      unfold log1 in Hlog2 at 1.
      now rewrite log_after_idem in Hlog2 by assumption.
    + intros Fac Flog. eexists.
      rewrite (update_weekly_chore_run payload cid uid c Hcid Huid Hc
                 (Some data1) d1 dcw1 ac1 log1 Hdata1 Gcw1 Gac1 Glog1
                 (update_first_entries _ _ _ Fac)
                 (log_after_entries _ _ _ _ _ Flog)).
      reflexivity.
  - intros e st'. apply update_weekly_chore_raise.
Qed.

Lemma update_weekly_chore_completed_logs_unless_logged_witness :
  exists data1 data2,
    update_weekly_chore tick (serve (AddChore take_out_trash) None)
      = (Ok data1, Some data1) /\
    completedLog data1
      = Some (JArr [new_log_entry tick (JNum 3) (JNum 1)]) /\
    update_weekly_chore tick (Some data1) = (Ok data2, Some data2) /\
    completedLog data2
      = Some (JArr [new_log_entry tick (JNum 3) (JNum 1)]) /\
    count_for (JNum 3) (JNum 1) [new_log_entry tick (JNum 3) (JNum 1)]
      = 1%nat.
Proof.
  destruct (update_weekly_chore_completed_logs_unless_logged
              (serve (AddChore take_out_trash) None)
              tick (JNum 3) (JNum 1) (JBool true)
              [JObj [("choreId", JNum 3); ("userId", JNum 1);
                     ("completed", JBool false)]]
              []
              eq_refl eq_refl eq_refl eq_refl eq_refl eq_refl)
    as (Hreturns & Heffect & _).
  assert (Fac : Forall (fun e => is_entry e = true)
                  [JObj [("choreId", JNum 3); ("userId", JNum 1);
                         ("completed", JBool false)]])
    by (repeat constructor).
  destruct (Hreturns Fac (Forall_nil _)) as (data1 & Hrun1).
  destruct (Heffect data1 _ Hrun1) as (_ & log1 & Hlog1 & Elog1 & Htwice).
  destruct (Htwice eq_refl eq_refl) as (Hcount & Hsame & Hagain).
  destruct (Hagain Fac (Forall_nil _)) as (data2 & Hrun2).
  destruct (Hsame data2 _ Hrun2) as (_ & Hlog2).
  simpl in Elog1. subst log1.
  exists data1, data2.
  split; [exact Hrun1|]. split; [exact Hlog1|]. split; [exact Hrun2|].
  split; [exact Hlog2 | exact Hcount].
Defined.

(** C1 as stated fails on reachable stores, in three ways.  The log
    holds two entries for the pair (1, 2), put there by [log_chore]:
    both applications of the payload succeed and leave the store as it
    is, with two entries for that pair, not one.  The log holds a
    payload without choreId and no entry for the pair (3, 1): the
    operation raises KeyError 'choreId' and appends nothing.  The
    payload's choreId is NaN, which equals nothing, itself included: on
    a fresh installation the second application appends a second
    entry. *)
Lemma update_weekly_chore_twice_leaves_two_entries :
  (reachable dishes_store /\
   field "completed" dish_done = Some (JBool true) /\
   update_weekly_chore dish_done dishes_store
     = (Ok (document dishes_store), dishes_store) /\
   serve (UpdateWeeklyChore dish_done)
     (serve (UpdateWeeklyChore dish_done) dishes_store) = dishes_store /\
   completedLog (document dishes_store)
     = Some (JArr [dish_entry 1; dish_entry 2]) /\
   count_for (JNum 1) (JNum 2) [dish_entry 1; dish_entry 2] = 2%nat) /\
  (reachable noted_todo_store /\
   update_weekly_chore tick noted_todo_store
     = (Raise (KeyError "choreId"), noted_todo_store) /\
   completedLog (document (serve (UpdateWeeklyChore tick) noted_todo_store))
     = Some (JArr [JObj [("note", JStr "swept")]]) /\
   existsb (for_pair (JNum 3) (JNum 1)) [JObj [("note", JStr "swept")]]
     = false) /\
  (completedLog (document (serve (UpdateWeeklyChore nan_done) None))
     = Some (JArr [new_log_entry nan_done (JFloat FNan) (JNum 1)]) /\
   completedLog
     (document (serve (UpdateWeeklyChore nan_done)
                  (serve (UpdateWeeklyChore nan_done) None)))
     = Some (JArr [new_log_entry nan_done (JFloat FNan) (JNum 1);
                   new_log_entry nan_done (JFloat FNan) (JNum 1)])).
Proof.
  split; [|split].
  - split; [apply reach_serve, reach_serve, reach_fresh|].
    repeat split; reflexivity.
  - split; [apply reach_serve, reach_serve, reach_fresh|].
    repeat split; reflexivity.
  - split; reflexivity.
Qed.

(** ** Reset Week *)

Lemma for_each_objects k v l :
  Forall (fun e => is_obj e = true) l ->
  for_each (fun chore => setitem chore k v) l = Ok (map (with_field k v) l).
Proof.
  induction 1 as [|e l He _ IH]; simpl; [reflexivity|].
  rewrite IH. destruct e; try discriminate. reflexivity.
Qed.

Lemma reset_week_run payload st p d dcw ac :
  field "prize" payload = Some p ->
  document st = JObj d ->
  Dict.get "currentWeek" d = Some (JObj dcw) ->
  Dict.get "assignedChores" dcw = Some (JArr ac) ->
  Forall (fun e => is_obj e = true) ac ->
  reset_week payload st =
  commit st (Ok (JObj (Dict.set "currentWeek"
    (JObj (Dict.set "assignedChores"
             (JArr (map (with_field "completed" (JBool false)) ac))
             (Dict.set "completedLog" (JArr [])
                (Dict.set "prize" p dcw)))) d))).
Proof.
  intros Hp Hd Gcw Gac Fac. apply getitem_field in Hp.
  pose proof (for_each_objects "completed" (JBool false) ac Fac) as Eloop.
  unfold reset_week. unfold mbind at 1, eval at 1. rewrite Hp.
  rewrite run_body. f_equal. rewrite Hd. crunch. reflexivity.
Qed.

Lemma Forall2_map_with_field k v l :
  Forall (fun e => is_obj e = true) l ->
  Forall2 (fun e e' => field k e' = Some v /\ unchanged_but [k] e e')
    l (map (with_field k v) l).
Proof.
  induction 1 as [|e l He _ IH]; simpl; constructor; auto.
  now apply with_field_sets.
Qed.

(** C3. For every document whose assignedChores is a list of objects and
    every payload with a prize, [reset_week] returns and persists a
    document whose prize is the payload's, whose completedLog is the
    empty list, and whose assignedChores has the same entries in the same
    order, each with completed set to false and its other fields
    unchanged; masterChores, users and every other field of the root
    document and of the current week are unchanged. *)
Theorem reset_week_clears_log_keeps_chores st payload p ac :
  field "prize" payload = Some p ->
  assignedChores (document st) = Some (JArr ac) ->
  Forall (fun e => is_obj e = true) ac ->
  exists data' ac',
    reset_week payload st = (Ok data', Some data') /\
    prize data' = Some p /\
    completedLog data' = Some (JArr []) /\
    assignedChores data' = Some (JArr ac') /\
    Forall2 (fun e e' => field "completed" e' = Some (JBool false) /\
                         unchanged_but ["completed"] e e') ac ac' /\
    masterChores data' = masterChores (document st) /\
    users data' = users (document st) /\
    unchanged_but ["currentWeek"] (document st) data' /\
    week_unchanged_but ["prize"; "completedLog"; "assignedChores"]
      (document st) data'.
Proof.
  intros Hp Hac Fac.
  apply week_field_inv in Hac as (d & dcw & Hd & Gcw & Gac).
  eexists. exists (map (with_field "completed" (JBool false)) ac).
  split.
  - rewrite (reset_week_run payload st p d dcw ac Hp Hd Gcw Gac Fac).
    reflexivity.
  - rewrite Hd.
    unfold prize, completedLog, assignedChores, masterChores, users,
      week_field.
    crunch. repeat split; auto.
    + now apply Forall2_map_with_field.
    + intros k Hk. simpl. apply DictFacts.get_set_other.
      intros <-. apply Hk. now left.
    + exists (JObj dcw). eexists. crunch. repeat split; eauto.
      intros k Hk. simpl.
      rewrite !DictFacts.get_set_other; auto;
        intros <-; apply Hk; simpl; auto.
Qed.

Lemma reset_week_clears_log_keeps_chores_witness :
  exists data' ac',
    reset_week (JObj [("prize", JStr "Movie night")]) (Some trash_week)
      = (Ok data', Some data') /\
    prize data' = Some (JStr "Movie night") /\
    completedLog data' = Some (JArr []) /\
    assignedChores data' = Some (JArr ac') /\
    Forall2 (fun e e' => field "completed" e' = Some (JBool false) /\
                         unchanged_but ["completed"] e e')
      trash_assigned ac' /\
    masterChores data' = masterChores (document (Some trash_week)) /\
    users data' = users (document (Some trash_week)) /\
    unchanged_but ["currentWeek"] (document (Some trash_week)) data' /\
    week_unchanged_but ["prize"; "completedLog"; "assignedChores"]
      (document (Some trash_week)) data'.
Proof.
  apply (reset_week_clears_log_keeps_chores (Some trash_week)
           (JObj [("prize", JStr "Movie night")]) (JStr "Movie night")
           trash_assigned);
    try reflexivity; repeat constructor.
Defined.

(** ** Add Chore *)

Lemma py_eq_weekly type : py_eq type (JStr "weekly") = is_weekly type.
Proof. destruct type; reflexivity. Qed.

Lemma add_chore_run payload st id name points type d dcw mc ac :
  field "id" payload = Some id ->
  field "name" payload = Some name ->
  field "points" payload = Some points ->
  field "type" payload = Some type ->
  document st = JObj d ->
  Dict.get "masterChores" d = Some (JArr mc) ->
  Dict.get "currentWeek" d = Some (JObj dcw) ->
  Dict.get "assignedChores" dcw = Some (JArr ac) ->
  add_chore payload st =
  commit st (Ok (JObj (Dict.set "currentWeek"
    (JObj (Dict.set "assignedChores"
             (JArr (ac ++ assigned_rows payload id type)) dcw))
    (Dict.set "masterChores"
       (JArr (mc ++ [master_entry id name points type])) d)))).
Proof.
  intros Hid Hname Hpoints Htype Hd Gmc Gcw Gac.
  destruct (field_inv _ _ _ Hid) as (pd & -> & Pid).
  simpl in Hname, Hpoints, Htype.
  unfold add_chore. rewrite run_body. f_equal. rewrite Hd.
  unfold assigned_rows, master_entry, and_then. crunch.
  rewrite py_eq_weekly. unfold Dict.mem.
  destruct (is_weekly type), (Dict.get "assignedUserId" pd) as [u|] eqn:Hu;
    crunch; try reflexivity;
    rewrite app_nil_r;
    rewrite (DictFacts.set_same "assignedChores" _ _ Gac);
    rewrite (DictFacts.set_same "currentWeek" (JObj dcw))
      by (now autorewrite with dict);
    reflexivity.
Qed.

(** C4. For every document of the data model and every payload with id,
    name, points and type, [add_chore] returns and persists a document
    whose masterChores is the prior list followed by {id, name, points,
    type}, whatever the type, and whose assignedChores is the prior list
    followed by {choreId: id, userId: assignedUserId, completed: false}
    exactly when type is "weekly" and the payload has the key
    assignedUserId, and is the prior list otherwise.  Nothing checks for
    duplicates: applying the same payload again appends the same
    MasterChore and the same AssignedChore rows once more. *)
Theorem add_chore_appends_without_dedup
  st payload id name points type mc ac :
  field "id" payload = Some id ->
  field "name" payload = Some name ->
  field "points" payload = Some points ->
  field "type" payload = Some type ->
  masterChores (document st) = Some (JArr mc) ->
  assignedChores (document st) = Some (JArr ac) ->
  exists data1 data2,
    add_chore payload st = (Ok data1, Some data1) /\
    masterChores data1
      = Some (JArr (mc ++ [master_entry id name points type])) /\
    assignedChores data1
      = Some (JArr (ac ++
          match field "assignedUserId" payload with
          | Some u =>
              if is_weekly type
              then [JObj [("choreId", id); ("userId", u);
                          ("completed", JBool false)]]
              else []
          | None => []
          end)) /\
    add_chore payload (Some data1) = (Ok data2, Some data2) /\
    masterChores data2
      = Some (JArr (mc ++ [master_entry id name points type;
                           master_entry id name points type])) /\
    assignedChores data2
      = Some (JArr (ac ++ assigned_rows payload id type
                       ++ assigned_rows payload id type)) /\
    (forall u, is_weekly type = true ->
               field "assignedUserId" payload = Some u ->
               assigned_rows payload id type ++ assigned_rows payload id type
               = [JObj [("choreId", id); ("userId", u);
                        ("completed", JBool false)];
                  JObj [("choreId", id); ("userId", u);
                        ("completed", JBool false)]]).
Proof.
  intros Hid Hname Hpoints Htype Hmc Hac.
  apply week_field_inv in Hac as (d & dcw & Hd & Gcw & Gac).
  pose proof Hmc as Gmc. rewrite Hd in Gmc. simpl in Gmc.
  set (mc1 := mc ++ [master_entry id name points type]).
  set (ac1 := ac ++ assigned_rows payload id type).
  set (dcw1 := Dict.set "assignedChores" (JArr ac1) dcw).
  set (d1 := Dict.set "currentWeek" (JObj dcw1)
               (Dict.set "masterChores" (JArr mc1) d)).
  assert (Gmc1 : Dict.get "masterChores" d1 = Some (JArr mc1))
    by (unfold d1; now autorewrite with dict).
  assert (Gcw1 : Dict.get "currentWeek" d1 = Some (JObj dcw1))
    by (unfold d1; now autorewrite with dict).
  assert (Gac1 : Dict.get "assignedChores" dcw1 = Some (JArr ac1))
    by (unfold dcw1; now autorewrite with dict).
  exists (JObj d1). eexists. split; [|split; [|split; [|split; [|split; [|split]]]]].
  - now rewrite (add_chore_run payload st id name points type d dcw mc ac).
  - exact Gmc1.
  - unfold assignedChores, week_field. simpl. rewrite Gcw1. simpl.
    rewrite Gac1. reflexivity.
  - now rewrite (add_chore_run payload (Some (JObj d1)) id name points type
                   d1 dcw1 mc1 ac1).
  - unfold masterChores. simpl. autorewrite with dict. unfold mc1.
    now rewrite <- app_assoc.
  - unfold assignedChores, week_field. simpl. autorewrite with dict. simpl.
    autorewrite with dict. unfold ac1. now rewrite <- app_assoc.
  - intros u Hw Hu. unfold assigned_rows. now rewrite Hu, Hw.
Qed.

Lemma add_chore_appends_without_dedup_witness :
  exists data1 data2,
    add_chore take_out_trash None = (Ok data1, Some data1) /\
    add_chore take_out_trash (Some data1) = (Ok data2, Some data2) /\
    assignedChores data2
      = Some (JArr [JObj [("choreId", JNum 3); ("userId", JNum 1);
                          ("completed", JBool false)];
                    JObj [("choreId", JNum 3); ("userId", JNum 1);
                          ("completed", JBool false)]]).
Proof.
  destruct (add_chore_appends_without_dedup None take_out_trash
              (JNum 3) (JStr "Take out trash") (JNum 10) (JStr "weekly")
              [JObj [("id", JNum 1); ("name", JStr "Washed a dish");
                     ("points", JNum 5); ("type", JStr "repeatable")];
               JObj [("id", JNum 2); ("name", JStr "Cleaned cat litter");
                     ("points", JNum 20); ("type", JStr "repeatable")]]
              [])
    as (data1 & data2 & H1 & _ & _ & H2 & _ & Hac & _); try reflexivity.
  exists data1, data2. repeat split; assumption.
Defined.

(** ** Update Weekly Chore on payloads with missing keys *)

(** Loops whose condition, on every item, either fails to hold or raises
    the same exception. *)
Section RaisingCondition.

Variables (f : json -> result bool) (hit : json -> bool) (E : exn).
Variable P : json -> Prop.
Hypothesis f_hit : forall x, P x -> f x = if hit x then Raise E else Ok false.

Lemma for_first_raising body l :
  Forall P l ->
  for_first f body l = if existsb hit l then Raise E else Ok l.
Proof.
  induction 1 as [|x l Hx _ IH]; simpl; [reflexivity|].
  rewrite (f_hit x Hx). destruct (hit x); simpl; [reflexivity|].
  rewrite IH. now destruct (existsb hit l).
Qed.

Lemma any_m_raising l :
  Forall P l ->
  any_m f l = if existsb hit l then Raise E else Ok false.
Proof.
  induction 1 as [|x l Hx _ IH]; simpl; [reflexivity|].
  rewrite (f_hit x Hx). now destruct (hit x).
Qed.

Lemma filter_m_raising l :
  Forall P l ->
  filter_m (fun x => h <- f x ;; Ok (negb h)) l
  = if existsb hit l then Raise E else Ok l.
Proof.
  induction 1 as [|x l Hx _ IH]; simpl; [reflexivity|].
  rewrite (f_hit x Hx). destruct (hit x); simpl; [reflexivity|].
  rewrite IH. now destruct (existsb hit l).
Qed.

End RaisingCondition.

(** A loop whose body always raises. *)
Lemma for_first_raising_body f g body E (P : json -> Prop) l :
  (forall x, P x -> f x = Ok (g x)) ->
  (forall x, body x = Raise E) ->
  Forall P l ->
  for_first f body l = if existsb g l then Raise E else Ok l.
Proof.
  intros Hf Hbody. induction 1 as [|x l Hx _ IH]; simpl; [reflexivity|].
  rewrite (Hf x Hx). simpl. destruct (g x); simpl.
  - now rewrite Hbody.
  - rewrite IH. now destruct (existsb g l).
Qed.

Lemma same_pair_no_choreId payload :
  is_obj payload = true -> has_key "choreId" payload = false ->
  forall e,
    is_entry e = true ->
    same_pair e payload
    = if true then Raise (KeyError "choreId") else Ok false.
Proof.
  intros Hobj Hmiss e He. apply is_entry_inv in He as (de & a & b & -> & Ha & Hb).
  rewrite (same_pair_eval _ _ a b) by assumption.
  now rewrite (missing_key _ _ Hobj Hmiss).
Qed.

Lemma same_pair_no_userId payload cid :
  is_obj payload = true ->
  field "choreId" payload = Some cid -> has_key "userId" payload = false ->
  forall e,
    is_entry e = true ->
    same_pair e payload
    = if refers_to "choreId" cid e
      then Raise (KeyError "userId") else Ok false.
Proof.
  intros Hobj Hcid Hmiss e He.
  apply is_entry_inv in He as (de & a & b & -> & Ha & Hb).
  rewrite (same_pair_eval _ _ a b) by assumption.
  apply getitem_field in Hcid. rewrite Hcid. simpl.
  rewrite (missing_key _ _ Hobj Hmiss). unfold refers_to. simpl.
  now rewrite Ha.
Qed.

Lemma existsb_true (l : list json) :
  existsb (fun _ => true) l = match l with [] => false | _ => true end.
Proof. now destruct l. Qed.

Lemma week_as_it_was d dcw ac log :
  Dict.get "currentWeek" d = Some (JObj dcw) ->
  Dict.get "assignedChores" dcw = Some (JArr ac) ->
  Dict.get "completedLog" dcw = Some (JArr log) ->
  JObj (Dict.set "currentWeek"
          (JObj (Dict.set "completedLog" (JArr log)
                   (Dict.set "assignedChores" (JArr ac) dcw))) d)
  = JObj d.
Proof.
  intros Gcw Gac Glog.
  rewrite (DictFacts.set_same "assignedChores" _ _ Gac).
  rewrite (DictFacts.set_same "completedLog" _ _ Glog).
  now rewrite (DictFacts.set_same "currentWeek" _ _ Gcw).
Qed.

Lemma has_key_field k x : has_key k x = true -> exists v, field k x = Some v.
Proof. unfold has_key. destruct (field k x); [eauto|discriminate]. Qed.

(** C9, as the code has it. For every document of the data model and
    every JSON-object payload: [update_weekly_chore] raises a KeyError
    naming a missing key, and writes nothing, whenever the payload lacks
    completed, and whenever it lacks choreId or userId while its
    completed is true.  When completed is false, a payload without
    choreId raises KeyError 'choreId' unless assignedChores and
    completedLog are both empty, and a payload with a choreId but without
    userId raises KeyError 'userId' only if some assignedChores or
    completedLog entry has that choreId; otherwise the call succeeds and
    leaves the document unchanged. *)
Theorem update_weekly_chore_missing_key st payload ac log :
  is_obj payload = true ->
  assignedChores (document st) = Some (JArr ac) ->
  completedLog (document st) = Some (JArr log) ->
  Forall (fun e => is_entry e = true) ac ->
  Forall (fun e => is_entry e = true) log ->
  (has_key "completed" payload = false ->
   exists k,
     has_key k payload = false /\
     update_weekly_chore payload st
       = (Raise (KeyError k), Some (document st)))
  /\
  (forall c,
      field "completed" payload = Some c -> truthy c = true ->
      has_key "choreId" payload = false \/ has_key "userId" payload = false ->
      exists k,
        has_key k payload = false /\
        update_weekly_chore payload st
          = (Raise (KeyError k), Some (document st)))
  /\
  (forall c,
      field "completed" payload = Some c -> truthy c = false ->
      has_key "choreId" payload = false ->
      update_weekly_chore payload st
        = match ac, log with
          | [], [] => (Ok (document st), Some (document st))
          | _, _ => (Raise (KeyError "choreId"), Some (document st))
          end)
  /\
  (forall c cid,
      field "completed" payload = Some c -> truthy c = false ->
      field "choreId" payload = Some cid ->
      has_key "userId" payload = false ->
      update_weekly_chore payload st
        = if existsb (refers_to "choreId" cid) (ac ++ log)
          then (Raise (KeyError "userId"), Some (document st))
          else (Ok (document st), Some (document st))).
Proof.
  intros Hobj Hac Hlog Fac Flog.
  apply week_field_inv in Hac as (d & dcw & Hd & Gcw & Gac).
  pose proof Hlog as Glog. rewrite Hd in Glog.
  unfold completedLog, week_field in Glog. simpl in Glog.
  rewrite Gcw in Glog. simpl in Glog.
  rewrite (update_weekly_chore_shaped payload st d dcw ac log
             Hobj Hd Gcw Gac Glog).
  pose proof (week_as_it_was d dcw ac log Gcw Gac Glog) as Hsame.
  rewrite <- Hd in Hsame.
  split; [|split; [|split]].
  - (* completed is missing *)
    intros Hnc. pose proof (missing_key _ _ Hobj Hnc) as Ec.
    destruct (has_key "choreId" payload) eqn:Kcid.
    + apply has_key_field in Kcid as (cid & Hcid).
      destruct (has_key "userId" payload) eqn:Kuid.
      * apply has_key_field in Kuid as (uid & Huid).
        exists "completed". split; [assumption|].
        rewrite (for_first_raising_body _ (for_pair cid uid) _
                   (KeyError "completed") (fun e => is_entry e = true));
          [| apply same_pair_good; assumption
           | intros x; now rewrite Ec
           | assumption].
        destruct (existsb (for_pair cid uid) ac); simpl; [reflexivity|].
        now rewrite Ec.
      * rewrite (for_first_raising _ _ _ _
                   (same_pair_no_userId payload cid Hobj Hcid Kuid) _ ac Fac).
        destruct (existsb (refers_to "choreId" cid) ac); simpl.
        -- exists "userId". auto.
        -- exists "completed". rewrite Ec. auto.
    + rewrite (for_first_raising _ (fun _ => true) (KeyError "choreId") _
                 (same_pair_no_choreId payload Hobj Kcid) _ ac Fac).
      rewrite existsb_true. destruct ac; simpl.
      * exists "completed". rewrite Ec. auto.
      * exists "choreId". auto.
  - (* completed is true *)
    intros c Hc Htrue Hmiss. apply getitem_field in Hc.
    destruct (has_key "choreId" payload) eqn:Kcid.
    + destruct Hmiss as [Hmiss|Kuid]; [discriminate|].
      apply has_key_field in Kcid as (cid & Hcid).
      exists "userId". split; [assumption|].
      rewrite (for_first_raising _ _ _ _
                 (same_pair_no_userId payload cid Hobj Hcid Kuid) _ ac Fac).
      destruct (existsb (refers_to "choreId" cid) ac); simpl; [reflexivity|].
      rewrite Hc. simpl. rewrite Htrue.
      rewrite (any_m_raising _ _ _ _
                 (same_pair_no_userId payload cid Hobj Hcid Kuid) log Flog).
      destruct (existsb (refers_to "choreId" cid) log); simpl; [reflexivity|].
      apply getitem_field in Hcid. rewrite Hcid. simpl.
      now rewrite (missing_key _ _ Hobj Kuid).
    + exists "choreId". split; [assumption|].
      rewrite (for_first_raising _ (fun _ => true) (KeyError "choreId") _
                 (same_pair_no_choreId payload Hobj Kcid) _ ac Fac).
      rewrite existsb_true. destruct ac; simpl; [|reflexivity].
      rewrite Hc. simpl. rewrite Htrue.
      rewrite (any_m_raising _ (fun _ => true) (KeyError "choreId") _
                 (same_pair_no_choreId payload Hobj Kcid) log Flog).
      rewrite existsb_true. destruct log; simpl; [|reflexivity].
      now rewrite (missing_key _ _ Hobj Kcid).
  - (* completed is false, choreId is missing *)
    intros c Hc Hfalse Kcid. apply getitem_field in Hc.
    rewrite (for_first_raising _ (fun _ => true) (KeyError "choreId") _
               (same_pair_no_choreId payload Hobj Kcid) _ ac Fac).
    rewrite existsb_true. destruct ac; simpl; [|now destruct log].
    rewrite Hc. simpl. rewrite Hfalse.
    rewrite (filter_m_raising _ (fun _ => true) (KeyError "choreId") _
               (same_pair_no_choreId payload Hobj Kcid) log Flog).
    rewrite existsb_true. destruct log; simpl; [|reflexivity].
    now rewrite Hsame.
  - (* completed is false, userId is missing *)
    intros c cid Hc Hfalse Hcid Kuid. apply getitem_field in Hc.
    rewrite existsb_app.
    rewrite (for_first_raising _ _ _ _
               (same_pair_no_userId payload cid Hobj Hcid Kuid) _ ac Fac).
    destruct (existsb (refers_to "choreId" cid) ac); simpl; [reflexivity|].
    rewrite Hc. simpl. rewrite Hfalse.
    rewrite (filter_m_raising _ _ _ _
               (same_pair_no_userId payload cid Hobj Hcid Kuid) log Flog).
    destruct (existsb (refers_to "choreId" cid) log); simpl; [reflexivity|].
    now rewrite Hsame.
Qed.

Lemma update_weekly_chore_missing_key_witness :
  update_weekly_chore (JObj [("choreId", JNum 3); ("completed", JBool false)])
    (Some trash_week)
  = (Raise (KeyError "userId"), Some trash_week).
Proof.
  apply (proj2 (proj2 (proj2
           (update_weekly_chore_missing_key (Some trash_week)
              (JObj [("choreId", JNum 3); ("completed", JBool false)])
              trash_assigned trash_log
              eq_refl eq_refl eq_refl
              ltac:(repeat constructor) ltac:(repeat constructor))))
           (JBool false) (JNum 3));
    reflexivity.
Defined.

(** C9 as stated fails on a fresh installation: a payload without choreId
    and userId whose completed is false is served without any error, and
    the document stays as it was. *)
Lemma update_weekly_chore_serves_payload_without_ids :
  has_key "choreId" (JObj [("completed", JBool false)]) = false /\
  has_key "userId" (JObj [("completed", JBool false)]) = false /\
  update_weekly_chore (JObj [("completed", JBool false)]) None
    = (Ok default_data, Some default_data).
Proof. repeat split; reflexivity. Qed.

(** ** Reachable stores are well shaped *)

Lemma well_shaped_inv data :
  well_shaped data ->
  exists d dcw mc ac log,
    data = JObj d /\
    Dict.get "masterChores" d = Some (JArr mc) /\
    Dict.get "currentWeek" d = Some (JObj dcw) /\
    Dict.get "assignedChores" dcw = Some (JArr ac) /\
    Dict.get "completedLog" dcw = Some (JArr log) /\
    Forall (fun c => has_key "id" c = true) mc /\
    Forall (fun e => is_entry e = true) ac.
Proof.
  intros (mc & ac & log & Hmc & Hac & Hlog & Fmc & Fac).
  destruct (document_inv _ _ _ _ Hmc Hac Hlog)
    as (d & dcw & Hd & Gmc & Gcw & Gac & Glog).
  exists d, dcw, mc, ac, log. auto 8.
Qed.

Lemma well_shaped_intro d dcw mc ac log :
  Dict.get "masterChores" d = Some (JArr mc) ->
  Dict.get "currentWeek" d = Some (JObj dcw) ->
  Dict.get "assignedChores" dcw = Some (JArr ac) ->
  Dict.get "completedLog" dcw = Some (JArr log) ->
  Forall (fun c => has_key "id" c = true) mc ->
  Forall (fun e => is_entry e = true) ac ->
  well_shaped (JObj d).
Proof.
  intros Gmc Gcw Gac Glog Fmc Fac. exists mc, ac, log.
  unfold masterChores, assignedChores, completedLog, week_field. simpl.
  rewrite Gcw. simpl. auto.
Qed.

Lemma well_shaped_default : well_shaped default_data.
Proof.
  eapply well_shaped_intro; try reflexivity; repeat constructor.
Qed.

(** A handler that commits keeps the invariant when its result, if any,
    has it. *)
Lemma well_shaped_commit st r :
  well_shaped (document st) ->
  (forall data', r = Ok data' -> well_shaped data') ->
  well_shaped (document (snd (commit st r))).
Proof. intros Hst Hr. destruct r; simpl; auto. Qed.

Lemma for_first_entries payload f l l' :
  for_first f
    (fun chore => v <- getitem payload "completed" ;;
                  setitem chore "completed" v) l = Ok l' ->
  Forall (fun e => is_entry e = true) l ->
  Forall (fun e => is_entry e = true) l'.
Proof.
  revert l'. induction l as [|x l IH]; simpl; intros l' H Fl.
  - injection H as <-. constructor.
  - inversion Fl as [|? ? Hx Fl']; subst.
    destruct (f x) as [[|]|]; simpl in H; try discriminate.
    + destruct (getitem payload "completed") as [v|]; [|discriminate].
      simpl in H. pose proof (is_entry_with_completed v x Hx) as Hx'.
      destruct x; try discriminate. simpl in H. injection H as <-.
      constructor; assumption.
    + destruct (for_first f _ l) as [rest|]; [|discriminate].
      simpl in H. injection H as <-. constructor; auto.
Qed.

Ltac dict_fact :=
  autorewrite with dict; first [reflexivity | eassumption].

Ltac shaped mc ac log :=
  eapply (well_shaped_intro _ _ mc ac log);
  [dict_fact | dict_fact | dict_fact | dict_fact | | ]; auto.

Lemma log_chore_well_shaped payload st :
  well_shaped (document st) ->
  well_shaped (document (serve (LogChore payload) st)).
Proof.
  intros Hst.
  destruct (well_shaped_inv _ Hst)
    as (d & dcw & mc & ac & log & Hd & Gmc & Gcw & Gac & Glog & Fmc & Fac).
  unfold serve. simpl handle.
  rewrite (log_chore_run st payload d dcw log Hd Gcw Glog). simpl.
  shaped mc ac (log ++ [payload]).
Qed.

Lemma update_weekly_chore_well_shaped payload st :
  well_shaped (document st) ->
  well_shaped (document (serve (UpdateWeeklyChore payload) st)).
Proof.
  intros Hst.
  destruct (well_shaped_inv _ Hst)
    as (d & dcw & mc & ac & log & Hd & Gmc & Gcw & Gac & Glog & Fmc & Fac).
  unfold serve. simpl handle. unfold update_weekly_chore. rewrite run_body.
  apply well_shaped_commit; [assumption|]. intros data'. rewrite Hd.
  simpl. rewrite Gcw. simpl. rewrite Gac. simpl.
  destruct (for_first _ _ ac) as [chores|] eqn:Hloop; [|discriminate].
  pose proof (for_first_entries _ _ _ _ Hloop Fac) as Fchores.
  simpl. destruct (getitem payload "completed") as [c|]; simpl;
    [|discriminate].
  autorewrite with dict. simpl. autorewrite with dict. rewrite Glog. simpl.
  destruct (truthy c).
  - destruct (any_m _ log) as [[|]|]; simpl; [| |discriminate].
    + intros [= <-]. shaped mc chores log.
    + destruct (get_of payload); simpl; [|discriminate].
      destruct (getitem payload "choreId"); simpl; [|discriminate].
      destruct (getitem payload "userId"); simpl; [|discriminate].
      autorewrite with dict. intros [= <-].
      match goal with
      | |- context [JArr (log ++ ?l)] => shaped mc chores (log ++ l)
      end.
  - destruct (filter_m _ log) as [kept|]; simpl; [|discriminate].
    autorewrite with dict. intros [= <-]. shaped mc chores kept.
Qed.

Lemma add_chore_well_shaped payload st :
  well_shaped (document st) ->
  well_shaped (document (serve (AddChore payload) st)).
Proof.
  intros Hst.
  destruct (well_shaped_inv _ Hst)
    as (d & dcw & mc & ac & log & Hd & Gmc & Gcw & Gac & Glog & Fmc & Fac).
  unfold serve. simpl handle. unfold add_chore. rewrite run_body.
  apply well_shaped_commit; [assumption|]. intros data'. rewrite Hd.
  destruct (getitem payload "id") as [id|] eqn:Hid; simpl; [|discriminate].
  destruct (getitem payload "name") as [name|]; simpl; [|discriminate].
  destruct (getitem payload "points") as [points|]; simpl; [|discriminate].
  destruct (getitem payload "type") as [type|]; simpl; [|discriminate].
  rewrite Gmc. simpl.
  set (m := JObj [("id", id); ("name", name); ("points", points);
                  ("type", type)]).
  assert (Fmc' : Forall (fun c => has_key "id" c = true) (mc ++ [m])).
  { apply Forall_app. split; [assumption|]. repeat constructor. }
  assert (Hplain : well_shaped
            (JObj (Dict.set "masterChores" (JArr (mc ++ [m])) d)))
    by (shaped (mc ++ [m]) ac log).
  destruct (py_eq type (JStr "weekly")); simpl;
    [|intros [= <-]; exact Hplain].
  destruct (py_in "assignedUserId" payload) as [[|]|]; simpl;
    [| intros [= <-]; exact Hplain | discriminate].
  autorewrite with dict. rewrite Gcw. simpl. rewrite Gac. simpl.
  destruct (getitem payload "assignedUserId") as [u|]; simpl;
    [|discriminate].
  intros [= <-].
  match goal with
  | |- context [JArr (ac ++ ?l)] => shaped (mc ++ [m]) (ac ++ l) log
  end.
  apply Forall_app. split; [assumption|]. repeat constructor.
Qed.

Lemma delete_chore_well_shaped payload st :
  well_shaped (document st) ->
  well_shaped (document (serve (DeleteChore payload) st)).
Proof.
  intros Hst. unfold serve. simpl handle.
  destruct (getitem payload "choreId") as [cid|e] eqn:Hp.
  - rewrite (delete_chore_document payload st cid Hp).
    destruct (delete_chore_outcome payload (document st) cid Hp)
      as [(e & He) | (d & dcw & mc & ac & log & mc' & ac' & log' &
                      Hd & Gmc & Gcw & Gac & Glog & Hmc & Hac & Hlog)].
    + now rewrite He.
    + rewrite (delete_chore_run payload (Some (document st)) cid d dcw
                 mc ac log mc' ac' log') by assumption.
      simpl.
      destruct (well_shaped_inv _ Hst)
        as (d0 & dcw0 & mc0 & ac0 & log0 & Hd0 & Gmc0 & Gcw0 & Gac0 & Glog0
            & Fmc & Fac).
      rewrite Hd in Hd0. injection Hd0 as <-.
      rewrite Gcw in Gcw0. injection Gcw0 as <-.
      rewrite Gmc in Gmc0. injection Gmc0 as ->.
      rewrite Gac in Gac0. injection Gac0 as ->.
      rewrite Glog in Glog0. injection Glog0 as ->.
      apply without_chore_inv in Hmc as (? & [= <-] & _ & ->).
      apply without_chore_inv in Hac as (? & [= <-] & _ & ->).
      apply without_chore_inv in Hlog as (? & [= <-] & _ & ->).
      shaped (others "id" cid mc0) (others "choreId" cid ac0)
             (others "choreId" cid log0);
        apply Forall_filter; assumption.
  - now rewrite (delete_chore_early payload st e Hp).
Qed.

Lemma reset_week_well_shaped payload st :
  well_shaped (document st) ->
  well_shaped (document (serve (ResetWeek payload) st)).
Proof.
  intros Hst.
  destruct (well_shaped_inv _ Hst)
    as (d & dcw & mc & ac & log & Hd & Gmc & Gcw & Gac & Glog & Fmc & Fac).
  unfold serve. simpl handle.
  destruct (getitem payload "prize") as [p|] eqn:Hp.
  - apply getitem_field in Hp.
    rewrite (reset_week_run payload st p d dcw ac Hp Hd Gcw Gac)
      by (eapply Forall_impl; [|exact Fac]; apply is_entry_is_obj).
    simpl.
    shaped mc (map (with_field "completed" (JBool false)) ac) (@nil json).
    apply Forall_map. eapply Forall_impl; [|exact Fac].
    intros e He. now apply is_entry_with_completed.
  - unfold reset_week. unfold mbind at 1, eval at 1. now rewrite Hp.
Qed.

Lemma reachable_shape st : reachable st -> well_shaped (document st).
Proof.
  induction 1 as [|r st _ IH].
  - apply well_shaped_default.
  - destruct r as [|p|p|p|p|p].
    + unfold serve. simpl handle. destruct st; exact IH.
    + now apply log_chore_well_shaped.
    + now apply update_weekly_chore_well_shaped.
    + now apply add_chore_well_shaped.
    + now apply delete_chore_well_shaped.
    + now apply reset_week_well_shaped.
Qed.

(** X1. Every store that a fresh installation can get into, by any
    sequence of requests with any payloads, holds a document in which
    masterChores, assignedChores and completedLog are lists, every
    MasterChore has an id and every AssignedChore has a choreId and a
    userId: the shape hypotheses on masterChores and assignedChores in
    the statements above hold on all of them. *)
Theorem reachable_well_shaped st : reachable st -> well_shaped (document st).
Proof. apply reachable_shape. Qed.

Lemma reachable_well_shaped_witness : well_shaped (document (Some trash_week)).
Proof. apply (reachable_well_shaped (Some trash_week)), trash_week_reachable. Defined.

(** ** A request either commits or leaves the document alone *)

Lemma handle_form r st :
  (exists x, handle r st = commit st x) \/
  (exists e, handle r st = (Raise e, st)).
Proof.
  destruct r as [|p|p|p|p|p]; simpl handle.
  - left. exists (Ok (document st)). now destruct st.
  - left. unfold log_chore. rewrite run_body. eexists. reflexivity.
  - left. unfold update_weekly_chore. rewrite run_body. eexists. reflexivity.
  - left. unfold add_chore. rewrite run_body. eexists. reflexivity.
  - unfold delete_chore. unfold mbind at 1, eval at 1.
    destruct (getitem p "choreId"); [|right; eexists; reflexivity].
    left. rewrite run_body. eexists. reflexivity.
  - unfold reset_week. unfold mbind at 1, eval at 1.
    destruct (getitem p "prize"); [|right; eexists; reflexivity].
    left. rewrite run_body. eexists. reflexivity.
Qed.

(** X2. For every request and every store: when the handler raises, the
    document in the store is the one the request found, whatever the
    handler had already mutated in memory; when it returns, the store
    holds exactly the document of the response. *)
Theorem request_is_all_or_nothing r st :
  match fst (handle r st) with
  | Raise _ => document (serve r st) = document st
  | Ok data' => serve r st = Some data'
  end.
Proof.
  unfold serve.
  destruct (handle_form r st) as [(x & ->) | (e & ->)]; simpl; [|reflexivity].
  destruct x; reflexivity.
Qed.

(** ** What a request never writes *)

Lemma commit_cases (P : json -> Prop) st x :
  P (document st) ->
  (forall data', x = Ok data' -> P data') ->
  P (document (snd (commit st x))).
Proof. intros Hst Hx. destruct x; simpl; auto. Qed.

Lemma framed_refl rk wk data : well_shaped data -> framed rk wk data data.
Proof.
  intros H.
  destruct (well_shaped_inv _ H) as (d & dcw & _ & _ & _ & -> & _ & Gcw & _).
  split; [split; reflexivity|].
  exists (JObj dcw), (JObj dcw). repeat split; auto.
Qed.

Lemma framed_week rk wk d dcw dcw' :
  Dict.get "currentWeek" d = Some (JObj dcw) ->
  In "currentWeek" rk ->
  (forall k, ~ In k wk -> Dict.get k dcw' = Dict.get k dcw) ->
  framed rk wk (JObj d) (JObj (Dict.set "currentWeek" (JObj dcw') d)).
Proof.
  intros Gcw Hrk Hwk. split.
  - now apply unchanged_but_set.
  - exists (JObj dcw), (JObj dcw'). simpl. autorewrite with dict.
    repeat split; auto.
Qed.

Lemma framed_master rk wk d dcw y :
  Dict.get "currentWeek" d = Some (JObj dcw) ->
  In "masterChores" rk ->
  framed rk wk (JObj d) (JObj (Dict.set "masterChores" y d)).
Proof.
  intros Gcw Hrk. split.
  - now apply unchanged_but_set.
  - exists (JObj dcw), (JObj dcw). simpl. autorewrite with dict.
    repeat split; auto.
Qed.

Lemma framed_master_week rk wk d dcw dcw' y :
  Dict.get "currentWeek" d = Some (JObj dcw) ->
  In "masterChores" rk ->
  In "currentWeek" rk ->
  (forall k, ~ In k wk -> Dict.get k dcw' = Dict.get k dcw) ->
  framed rk wk (JObj d)
    (JObj (Dict.set "currentWeek" (JObj dcw') (Dict.set "masterChores" y d))).
Proof.
  intros Gcw Hmc Hrk Hwk. split.
  - now apply unchanged_but_set2.
  - exists (JObj dcw), (JObj dcw'). simpl. autorewrite with dict.
    repeat split; auto.
Qed.

(** Fields of the week outside the write set survive the assignments. *)
Ltac week_kept :=
  let k := fresh "k" in
  let Hk := fresh "Hk" in
  intros k Hk; rewrite ?DictFacts.get_set_other; auto;
  intros <-; apply Hk; simpl; tauto.

Lemma log_chore_framed payload st :
  well_shaped (document st) ->
  framed ["currentWeek"] ["completedLog"]
    (document st) (document (serve (LogChore payload) st)).
Proof.
  intros Hst.
  destruct (well_shaped_inv _ Hst)
    as (d & dcw & mc & ac & log & Hd & Gmc & Gcw & Gac & Glog & Fmc & Fac).
  unfold serve. simpl handle.
  rewrite (log_chore_run st payload d dcw log Hd Gcw Glog). simpl.
  rewrite Hd. apply (framed_week _ _ d dcw); simpl; auto. week_kept.
Qed.

Lemma update_weekly_chore_framed payload st :
  well_shaped (document st) ->
  framed ["currentWeek"] ["assignedChores"; "completedLog"]
    (document st) (document (serve (UpdateWeeklyChore payload) st)).
Proof.
  intros Hst.
  destruct (well_shaped_inv _ Hst)
    as (d & dcw & mc & ac & log & Hd & Gmc & Gcw & Gac & Glog & Fmc & Fac).
  unfold serve. simpl handle. unfold update_weekly_chore. rewrite run_body.
  apply commit_cases; [now apply framed_refl|]. intros data'. rewrite Hd.
  simpl. rewrite Gcw. simpl. rewrite Gac. simpl.
  destruct (for_first _ _ ac) as [chores|]; [|discriminate].
  simpl. destruct (getitem payload "completed") as [c|]; simpl;
    [|discriminate].
  autorewrite with dict. simpl. autorewrite with dict. rewrite Glog. simpl.
  destruct (truthy c).
  - destruct (any_m _ log) as [[|]|]; simpl; [| |discriminate].
    + intros [= <-]. apply (framed_week _ _ d dcw); simpl; auto. week_kept.
    + destruct (get_of payload); simpl; [|discriminate].
      destruct (getitem payload "choreId"); simpl; [|discriminate].
      destruct (getitem payload "userId"); simpl; [|discriminate].
      autorewrite with dict. intros [= <-].
      apply (framed_week _ _ d dcw); simpl; auto. week_kept.
  - destruct (filter_m _ log) as [kept|]; simpl; [|discriminate].
    autorewrite with dict. intros [= <-].
    apply (framed_week _ _ d dcw); simpl; auto. week_kept.
Qed.

Lemma add_chore_framed payload st :
  well_shaped (document st) ->
  framed ["masterChores"; "currentWeek"] ["assignedChores"]
    (document st) (document (serve (AddChore payload) st)).
Proof.
  intros Hst.
  destruct (well_shaped_inv _ Hst)
    as (d & dcw & mc & ac & log & Hd & Gmc & Gcw & Gac & Glog & Fmc & Fac).
  unfold serve. simpl handle. unfold add_chore. rewrite run_body.
  apply commit_cases; [now apply framed_refl|]. intros data'. rewrite Hd.
  destruct (getitem payload "id") as [id|]; simpl; [|discriminate].
  destruct (getitem payload "name") as [name|]; simpl; [|discriminate].
  destruct (getitem payload "points") as [points|]; simpl; [|discriminate].
  destruct (getitem payload "type") as [type|]; simpl; [|discriminate].
  rewrite Gmc. simpl.
  destruct (py_eq type (JStr "weekly")); simpl;
    [|intros [= <-]; apply (framed_master _ _ d dcw); simpl; auto].
  destruct (py_in "assignedUserId" payload) as [[|]|]; simpl;
    [| intros [= <-]; apply (framed_master _ _ d dcw); simpl; auto
     | discriminate].
  autorewrite with dict. rewrite Gcw. simpl. rewrite Gac. simpl.
  destruct (getitem payload "assignedUserId") as [u|]; simpl;
    [|discriminate].
  intros [= <-]. apply (framed_master_week _ _ d dcw); simpl; auto.
  week_kept.
Qed.

Lemma delete_chore_framed payload st :
  well_shaped (document st) ->
  framed ["masterChores"; "currentWeek"] ["assignedChores"; "completedLog"]
    (document st) (document (serve (DeleteChore payload) st)).
Proof.
  intros Hst. unfold serve. simpl handle.
  destruct (getitem payload "choreId") as [cid|e] eqn:Hp.
  - rewrite (delete_chore_document payload st cid Hp).
    destruct (delete_chore_outcome payload (document st) cid Hp)
      as [(e & He) | (d & dcw & mc & ac & log & mc' & ac' & log' &
                      Hd & Gmc & Gcw & Gac & Glog & Hmc & Hac & Hlog)].
    + rewrite He. now apply framed_refl.
    + rewrite (delete_chore_run payload (Some (document st)) cid d dcw
                 mc ac log mc' ac' log') by assumption.
      simpl. rewrite Hd.
      apply (framed_master_week _ _ d dcw); simpl; auto. week_kept.
  - rewrite (delete_chore_early payload st e Hp). now apply framed_refl.
Qed.

Lemma reset_week_framed payload st :
  well_shaped (document st) ->
  framed ["currentWeek"] ["prize"; "completedLog"; "assignedChores"]
    (document st) (document (serve (ResetWeek payload) st)).
Proof.
  intros Hst.
  destruct (well_shaped_inv _ Hst)
    as (d & dcw & mc & ac & log & Hd & Gmc & Gcw & Gac & Glog & Fmc & Fac).
  unfold serve. simpl handle.
  destruct (getitem payload "prize") as [p|] eqn:Hp.
  - apply getitem_field in Hp.
    rewrite (reset_week_run payload st p d dcw ac Hp Hd Gcw Gac)
      by (eapply Forall_impl; [|exact Fac]; apply is_entry_is_obj).
    simpl. rewrite Hd. apply (framed_week _ _ d dcw); simpl; auto.
    week_kept.
  - unfold reset_week. unfold mbind at 1, eval at 1. rewrite Hp.
    now apply framed_refl.
Qed.

Lemma serve_framed r st :
  well_shaped (document st) ->
  framed (root_writes r) (week_writes r)
    (document st) (document (serve r st)).
Proof.
  intros Hst. destruct r as [|p|p|p|p|p].
  - unfold serve. simpl handle.
    replace (document (snd (get_state st))) with (document st)
      by (now destruct st).
    now apply framed_refl.
  - now apply log_chore_framed.
  - now apply update_weekly_chore_framed.
  - now apply add_chore_framed.
  - now apply delete_chore_framed.
  - now apply reset_week_framed.
Qed.

Lemma trash_week_shape : well_shaped (document (Some trash_week)).
Proof. apply reachable_shape, trash_week_reachable. Qed.

(** X3. On every well shaped document, and for every payload, a request
    changes at most the fields its handler assigns to: [log_chore] only
    currentWeek.completedLog; [update_weekly_chore] only
    currentWeek.assignedChores and currentWeek.completedLog; [add_chore]
    only masterChores and currentWeek.assignedChores; [delete_chore] only
    masterChores, currentWeek.assignedChores and currentWeek.completedLog;
    [reset_week] only currentWeek.prize, currentWeek.completedLog and
    currentWeek.assignedChores; [get_state] nothing.  Every other field
    of the root document and of the current week keeps its value,
    whether the request succeeds or raises. *)
Theorem request_writes_only_its_fields r st :
  well_shaped (document st) ->
  unchanged_but (root_writes r) (document st) (document (serve r st)) /\
  week_unchanged_but (week_writes r) (document st) (document (serve r st)).
Proof. apply serve_framed. Qed.

Lemma request_writes_only_its_fields_witness :
  unchanged_but ["currentWeek"] trash_week
    (document (serve (UpdateWeeklyChore untick) (Some trash_week))) /\
  week_unchanged_but ["assignedChores"; "completedLog"] trash_week
    (document (serve (UpdateWeeklyChore untick) (Some trash_week))).
Proof.
  apply (request_writes_only_its_fields (UpdateWeeklyChore untick)
           (Some trash_week)), trash_week_shape.
Defined.

Lemma users_not_written r : ~ In "users" (root_writes r).
Proof. destruct r; simpl; intuition discriminate. Qed.

(** X4. No request creates, changes or removes a user: every store that
    a fresh installation can get into holds exactly the users list of the
    seed document. *)
Theorem reachable_users_are_seed_users st :
  reachable st -> users (document st) = users default_data.
Proof.
  induction 1 as [|r st Hst IH]; [reflexivity|].
  destruct (serve_framed r st (reachable_shape st Hst)) as [[_ Hroot] _].
  unfold users. rewrite (Hroot "users" (users_not_written r)). exact IH.
Qed.

Lemma reachable_users_are_seed_users_witness :
  users (document (Some trash_week)) = users default_data.
Proof.
  apply (reachable_users_are_seed_users (Some trash_week)), trash_week_reachable.
Defined.

(** ** Malformed payloads *)

Lemma not_object_getitem k x : is_obj x = false -> getitem x k = Raise TypeError.
Proof. destruct x; simpl; try reflexivity; discriminate. Qed.

Lemma same_pair_not_object payload :
  is_obj payload = false ->
  forall e,
    is_entry e = true ->
    same_pair e payload = if true then Raise TypeError else Ok false.
Proof.
  intros Hp e He. apply is_entry_inv in He as (de & a & b & -> & Ha & Hb).
  rewrite (same_pair_eval _ _ a b) by assumption.
  now rewrite (not_object_getitem _ _ Hp).
Qed.

(** X5. A payload that is not a JSON object (null, a boolean, a number,
    a string or an array) makes [add_chore], [delete_chore], [reset_week]
    and, on a well shaped document, [update_weekly_chore] raise TypeError
    and leave the document as it is; [delete_chore] and [reset_week]
    raise before they read the store.  [log_chore] appends such a
    payload like any other. *)
Theorem non_object_payload_raises_type_error payload st :
  is_obj payload = false ->
  add_chore payload st = (Raise TypeError, Some (document st)) /\
  delete_chore payload st = (Raise TypeError, st) /\
  reset_week payload st = (Raise TypeError, st) /\
  (well_shaped (document st) ->
   update_weekly_chore payload st = (Raise TypeError, Some (document st)) /\
   exists data',
     log_chore payload st = (Ok data', Some data') /\
     exists log, completedLog data' = Some (JArr (log ++ [payload]))).
Proof.
  intros Hp. split; [|split; [|split]].
  - unfold add_chore. rewrite run_body.
    now rewrite (not_object_getitem "id" _ Hp).
  - apply delete_chore_early. now apply not_object_getitem.
  - unfold reset_week. unfold mbind at 1, eval at 1.
    now rewrite (not_object_getitem "prize" _ Hp).
  - intros Hst.
    destruct (well_shaped_inv _ Hst)
      as (d & dcw & mc & ac & log & Hd & Gmc & Gcw & Gac & Glog & Fmc & Fac).
    split.
    + unfold update_weekly_chore. rewrite run_body. rewrite Hd. simpl.
      rewrite Gcw. simpl. rewrite Gac. simpl.
      rewrite (for_first_raising _ (fun _ => true) TypeError _
                 (same_pair_not_object payload Hp) _ ac Fac).
      rewrite existsb_true. destruct ac; simpl.
      * now rewrite (not_object_getitem "completed" _ Hp), <- Hd.
      * now rewrite <- Hd.
    + eexists. split.
      * now rewrite (log_chore_run st payload d dcw log Hd Gcw Glog).
      * exists log. unfold completedLog, week_field. crunch. reflexivity.
Qed.

Lemma non_object_payload_raises_type_error_witness :
  add_chore JNull None = (Raise TypeError, Some default_data) /\
  delete_chore JNull None = (Raise TypeError, None) /\
  reset_week JNull None = (Raise TypeError, None) /\
  update_weekly_chore (JStr "done") (Some trash_week)
    = (Raise TypeError, Some trash_week).
Proof.
  destruct (non_object_payload_raises_type_error JNull None eq_refl)
    as (Hadd & Hdel & Hreset & _).
  destruct (non_object_payload_raises_type_error (JStr "done")
              (Some trash_week) eq_refl)
    as (_ & _ & _ & Hupd).
  destruct (Hupd trash_week_shape) as [Hupd' _].
  split; [exact Hadd|]. split; [exact Hdel|]. split; [exact Hreset|].
  exact Hupd'.
Defined.

(** X6. A JSON-object payload that lacks a required key: [add_chore]
    raises KeyError for the first key among id, name, points, type that
    is missing, after it read the store (a fresh installation gets its
    db.json all the same); [delete_chore] without choreId and
    [reset_week] without prize raise KeyError before they read the store
    (a fresh installation stays without db.json).  The document is never
    changed. *)
Theorem missing_required_key_raises_key_error payload st :
  is_obj payload = true ->
  (forall k,
      first_missing ["id"; "name"; "points"; "type"] payload = Some k ->
      add_chore payload st = (Raise (KeyError k), Some (document st))) /\
  (has_key "choreId" payload = false ->
   delete_chore payload st = (Raise (KeyError "choreId"), st)) /\
  (has_key "prize" payload = false ->
   reset_week payload st = (Raise (KeyError "prize"), st)).
Proof.
  intros Hobj. split; [|split].
  - intros k Hk. unfold add_chore. rewrite run_body.
    destruct payload as [| | | | | |pd]; try discriminate.
    unfold first_missing, has_key in Hk. simpl in Hk. simpl.
    destruct (Dict.get "id" pd); simpl in *; [|now injection Hk as <-].
    destruct (Dict.get "name" pd); simpl in *; [|now injection Hk as <-].
    destruct (Dict.get "points" pd); simpl in *; [|now injection Hk as <-].
    destruct (Dict.get "type" pd); simpl in *; [|now injection Hk as <-].
    discriminate.
  - intros Hk. apply delete_chore_early. now apply missing_key.
  - intros Hk. unfold reset_week. unfold mbind at 1, eval at 1.
    now rewrite (missing_key "prize" _ Hobj Hk).
Qed.

Lemma missing_required_key_raises_key_error_witness :
  add_chore (JObj [("id", JNum 4); ("points", JNum 5)]) None
    = (Raise (KeyError "name"), Some default_data) /\
  delete_chore (JObj [("id", JNum 4)]) None
    = (Raise (KeyError "choreId"), None) /\
  reset_week (JObj []) None = (Raise (KeyError "prize"), None).
Proof.
  destruct (missing_required_key_raises_key_error
              (JObj [("id", JNum 4); ("points", JNum 5)]) None eq_refl)
    as (Hadd & _ & _).
  destruct (missing_required_key_raises_key_error
              (JObj [("id", JNum 4)]) None eq_refl)
    as (_ & Hdel & _).
  destruct (missing_required_key_raises_key_error (JObj []) None eq_refl)
    as (_ & _ & Hreset).
  split; [apply Hadd; reflexivity|].
  split; [apply Hdel; reflexivity | apply Hreset; reflexivity].
Defined.

(** ** Adding a chore and deleting it again *)

Lemma dict_set_comm k k' v v' d :
  k <> k' -> Dict.mem k d = true ->
  Dict.set k v (Dict.set k' v' d) = Dict.set k' v' (Dict.set k v d).
Proof.
  intros Hne. unfold Dict.mem.
  induction d as [|[k0 w] d IH]; simpl; [discriminate|].
  destruct (String.eqb_spec k k0) as [->|Hk].
  - intros _. destruct (String.eqb_spec k' k0) as [->|Hk']; [congruence|].
    simpl. rewrite String.eqb_refl.
    destruct (String.eqb_spec k' k0); congruence.
  - intros Hmem. destruct (String.eqb_spec k' k0) as [->|Hk']; simpl.
    + destruct (String.eqb_spec k k0); [congruence|].
      now rewrite String.eqb_refl.
    + destruct (String.eqb_spec k k0); [congruence|].
      destruct (String.eqb_spec k' k0); [congruence|].
      now rewrite IH.
Qed.

Lemma mem_of_get k d v : Dict.get k d = Some v -> Dict.mem k d = true.
Proof. unfold Dict.mem. now intros ->. Qed.

(** Assigning the three lists of a document that already has them, on
    top of earlier assignments to the same three fields. *)
Lemma lists_overwritten d dcw mc ac log mc1 ac1 log1 mc2 ac2 log2 :
  Dict.get "masterChores" d = Some mc ->
  Dict.get "currentWeek" d = Some (JObj dcw) ->
  Dict.get "assignedChores" dcw = Some ac ->
  Dict.get "completedLog" dcw = Some log ->
  Dict.set "currentWeek"
    (JObj (Dict.set "completedLog" log2
             (Dict.set "assignedChores" ac2
                (Dict.set "completedLog" log1
                   (Dict.set "assignedChores" ac1 dcw)))))
    (Dict.set "masterChores" mc2
       (Dict.set "currentWeek"
          (JObj (Dict.set "completedLog" log1
                   (Dict.set "assignedChores" ac1 dcw)))
          (Dict.set "masterChores" mc1 d)))
  = Dict.set "currentWeek"
      (JObj (Dict.set "completedLog" log2 (Dict.set "assignedChores" ac2 dcw)))
      (Dict.set "masterChores" mc2 d).
Proof.
  intros Gmc Gcw Gac Glog.
  rewrite (dict_set_comm "assignedChores" "completedLog" ac2 log1)
    by (discriminate || (eapply mem_of_get; now autorewrite with dict)).
  rewrite !DictFacts.set_set.
  rewrite (dict_set_comm "masterChores" "currentWeek" mc2)
    by (discriminate || (eapply mem_of_get; now autorewrite with dict)).
  now rewrite !DictFacts.set_set.
Qed.

Lemma others_app key cid l l' :
  others key cid (l ++ l') = others key cid l ++ others key cid l'.
Proof. unfold others. apply filter_app. Qed.

Lemma assigned_rows_vanish payload id type :
  py_eq id id = true ->
  Forall (fun e => has_key "choreId" e = true) (assigned_rows payload id type)
  /\ others "choreId" id (assigned_rows payload id type) = [].
Proof.
  intros Hwf. unfold assigned_rows.
  destruct (field "assignedUserId" payload), (is_weekly type);
    (split; [repeat constructor|]); try reflexivity.
  unfold others, refers_to. simpl. now rewrite Hwf.
Qed.

(** X7. On a document whose three lists hold entries that carry their
    id (MasterChore) or choreId (AssignedChore, CompletedLogEntry) and
    of which none is about the id of the payload, and for an id that
    equals itself under [==] (every value but NaN does), [add_chore]
    followed by [delete_chore] of that id gives back exactly the
    document from before: the new MasterChore and, for a weekly chore,
    its AssignedChore row are removed again and nothing else is
    touched. *)
Theorem add_chore_then_delete_chore_restores
  st payload id name points type mc ac log :
  field "id" payload = Some id ->
  field "name" payload = Some name ->
  field "points" payload = Some points ->
  field "type" payload = Some type ->
  py_eq id id = true ->
  masterChores (document st) = Some (JArr mc) ->
  assignedChores (document st) = Some (JArr ac) ->
  completedLog (document st) = Some (JArr log) ->
  Forall (fun c => has_key "id" c = true) mc ->
  Forall (fun e => has_key "choreId" e = true) ac ->
  Forall (fun e => has_key "choreId" e = true) log ->
  Forall (fun c => refers_to "id" id c = false) mc ->
  Forall (fun e => refers_to "choreId" id e = false) ac ->
  Forall (fun e => refers_to "choreId" id e = false) log ->
  exists data1,
    add_chore payload st = (Ok data1, Some data1) /\
    masterChores data1
      = Some (JArr (mc ++ [master_entry id name points type])) /\
    delete_chore (JObj [("choreId", id)]) (Some data1)
      = (Ok (document st), Some (document st)).
Proof.
  intros Hid Hname Hpoints Htype Hwf Hmc Hac Hlog Fmc Fac Flog Nmc Nac Nlog.
  destruct (document_inv _ _ _ _ Hmc Hac Hlog)
    as (d & dcw & Hd & Gmc & Gcw & Gac & Glog).
  destruct (assigned_rows_vanish payload id type Hwf) as [Frows Erows].
  set (mc1 := mc ++ [master_entry id name points type]).
  set (ac1 := ac ++ assigned_rows payload id type).
  set (dcw1 := Dict.set "assignedChores" (JArr ac1) dcw).
  set (d1 := Dict.set "currentWeek" (JObj dcw1)
               (Dict.set "masterChores" (JArr mc1) d)).
  assert (Gmc1 : Dict.get "masterChores" d1 = Some (JArr mc1))
    by (unfold d1; now autorewrite with dict).
  assert (Gcw1 : Dict.get "currentWeek" d1 = Some (JObj dcw1))
    by (unfold d1; now autorewrite with dict).
  assert (Gac1 : Dict.get "assignedChores" dcw1 = Some (JArr ac1))
    by (unfold dcw1; now autorewrite with dict).
  assert (Glog1 : Dict.get "completedLog" dcw1 = Some (JArr log))
    by (unfold dcw1; now autorewrite with dict).
  assert (Fmc1 : Forall (fun c => has_key "id" c = true) mc1)
    by (apply Forall_app; split; [assumption | repeat constructor]).
  assert (Fac1 : Forall (fun e => has_key "choreId" e = true) ac1)
    by (apply Forall_app; split; assumption).
  assert (Emc1 : others "id" id mc1 = mc).
  { unfold mc1. rewrite others_app, (others_none _ _ _ Nmc).
    unfold others, refers_to. simpl. rewrite Hwf.
    apply app_nil_r. }
  assert (Eac1 : others "choreId" id ac1 = ac).
  { unfold ac1. rewrite others_app, (others_none _ _ _ Nac), Erows.
    apply app_nil_r. }
  exists (JObj d1). split; [|split].
  - now rewrite (add_chore_run payload st id name points type d dcw mc ac).
  - exact Gmc1.
  - rewrite (delete_chore_run (JObj [("choreId", id)]) (Some (JObj d1)) id
               d1 dcw1 _ _ _ _ _ _ eq_refl eq_refl Gmc1 Gcw1 Gac1 Glog1
               (without_chore_list _ _ _ Fmc1)
               (without_chore_list _ _ _ Fac1)
               (without_chore_list _ _ _ Flog)).
    rewrite Emc1, Eac1, (others_none _ _ _ Nlog).
    unfold d1, dcw1. rewrite DictFacts.set_set.
    rewrite (DictFacts.set_same "assignedChores" _ _ Gac).
    rewrite (DictFacts.set_same "completedLog" _ _ Glog).
    rewrite (dict_set_comm "masterChores" "currentWeek" (JArr mc))
      by (discriminate || (eapply mem_of_get; now autorewrite with dict)).
    rewrite !DictFacts.set_set.
    rewrite (DictFacts.set_same "masterChores" _ _ Gmc).
    rewrite (DictFacts.set_same "currentWeek" _ _ Gcw).
    simpl. now rewrite Hd.
Qed.

Lemma add_chore_then_delete_chore_restores_witness :
  exists data1,
    add_chore take_out_trash None = (Ok data1, Some data1) /\
    delete_chore (JObj [("choreId", JNum 3)]) (Some data1)
      = (Ok default_data, Some default_data).
Proof.
  destruct (add_chore_then_delete_chore_restores None take_out_trash
              (JNum 3) (JStr "Take out trash") (JNum 10) (JStr "weekly")
              [JObj [("id", JNum 1); ("name", JStr "Washed a dish");
                     ("points", JNum 5); ("type", JStr "repeatable")];
               JObj [("id", JNum 2); ("name", JStr "Cleaned cat litter");
                     ("points", JNum 20); ("type", JStr "repeatable")]]
              [] [])
    as (data1 & Hadd & _ & Hdel); try reflexivity; repeat constructor.
  exists data1. split; assumption.
Defined.

(** ** Deleting two chores *)

Lemma others_comm key a b l :
  others key a (others key b l) = others key b (others key a l).
Proof.
  unfold others. induction l as [|x l IH]; simpl; [reflexivity|].
  destruct (refers_to key b x) eqn:Hb, (refers_to key a x) eqn:Ha; simpl;
    rewrite ?Ha, ?Hb; simpl; congruence.
Qed.

Lemma others_keep_keys key k cid l :
  Forall (fun e => has_key k e = true) l ->
  Forall (fun e => has_key k e = true) (others key cid l).
Proof. apply Forall_filter. Qed.

(** [delete_chore] of [b] on a document from which [a] was deleted. *)
Lemma delete_chore_after_delete pa pb a b st d dcw mc ac log :
  getitem pa "choreId" = Ok a ->
  getitem pb "choreId" = Ok b ->
  document st = JObj d ->
  Dict.get "masterChores" d = Some (JArr mc) ->
  Dict.get "currentWeek" d = Some (JObj dcw) ->
  Dict.get "assignedChores" dcw = Some (JArr ac) ->
  Dict.get "completedLog" dcw = Some (JArr log) ->
  Forall (fun c => has_key "id" c = true) mc ->
  Forall (fun e => has_key "choreId" e = true) ac ->
  Forall (fun e => has_key "choreId" e = true) log ->
  exists data1,
    delete_chore pa st = (Ok data1, Some data1) /\
    delete_chore pb (Some data1)
    = commit (Some data1) (Ok (JObj (Dict.set "currentWeek"
        (JObj (Dict.set "completedLog"
                 (JArr (others "choreId" b (others "choreId" a log)))
                 (Dict.set "assignedChores"
                    (JArr (others "choreId" b (others "choreId" a ac)))
                    dcw)))
        (Dict.set "masterChores"
           (JArr (others "id" b (others "id" a mc))) d)))).
Proof.
  intros Ha Hb Hd Gmc Gcw Gac Glog Fmc Fac Flog.
  set (dcw1 := Dict.set "completedLog" (JArr (others "choreId" a log))
                 (Dict.set "assignedChores" (JArr (others "choreId" a ac))
                    dcw)).
  set (d1 := Dict.set "currentWeek" (JObj dcw1)
               (Dict.set "masterChores" (JArr (others "id" a mc)) d)).
  exists (JObj d1). split.
  - now rewrite (delete_chore_run pa st a d dcw _ _ _ _ _ _
                   Ha Hd Gmc Gcw Gac Glog
                   (without_chore_list _ _ _ Fmc)
                   (without_chore_list _ _ _ Fac)
                   (without_chore_list _ _ _ Flog)).
  - assert (Gmc1 : Dict.get "masterChores" d1
                   = Some (JArr (others "id" a mc)))
      by (unfold d1; now autorewrite with dict).
    assert (Gcw1 : Dict.get "currentWeek" d1 = Some (JObj dcw1))
      by (unfold d1; now autorewrite with dict).
    assert (Gac1 : Dict.get "assignedChores" dcw1
                   = Some (JArr (others "choreId" a ac)))
      by (unfold dcw1; now autorewrite with dict).
    assert (Glog1 : Dict.get "completedLog" dcw1
                    = Some (JArr (others "choreId" a log)))
      by (unfold dcw1; now autorewrite with dict).
    rewrite (delete_chore_run pb (Some (JObj d1)) b d1 dcw1 _ _ _ _ _ _
               Hb eq_refl Gmc1 Gcw1 Gac1 Glog1
               (without_chore_list _ _ _ (others_keep_keys _ _ a _ Fmc))
               (without_chore_list _ _ _ (others_keep_keys _ _ a _ Fac))
               (without_chore_list _ _ _ (others_keep_keys _ _ a _ Flog))).
    unfold d1, dcw1.
    now rewrite (lists_overwritten d dcw _ _ _ _ _ _ _ _ _ Gmc Gcw Gac Glog).
Qed.

(** X8. On every document of the data model, deleting chore [a] and then
    chore [b] returns and persists the same document as deleting [b] and
    then [a]. *)
Theorem delete_chore_commutes st pa pb a b mc ac log :
  field "choreId" pa = Some a ->
  field "choreId" pb = Some b ->
  masterChores (document st) = Some (JArr mc) ->
  assignedChores (document st) = Some (JArr ac) ->
  completedLog (document st) = Some (JArr log) ->
  Forall (fun c => has_key "id" c = true) mc ->
  Forall (fun e => has_key "choreId" e = true) ac ->
  Forall (fun e => has_key "choreId" e = true) log ->
  exists data_a data_b data',
    delete_chore pa st = (Ok data_a, Some data_a) /\
    delete_chore pb st = (Ok data_b, Some data_b) /\
    delete_chore pb (Some data_a) = (Ok data', Some data') /\
    delete_chore pa (Some data_b) = (Ok data', Some data') /\
    masterChores data' = Some (JArr (others "id" a (others "id" b mc))).
Proof.
  intros Ha Hb Hmc Hac Hlog Fmc Fac Flog.
  apply getitem_field in Ha, Hb.
  destruct (document_inv _ _ _ _ Hmc Hac Hlog)
    as (d & dcw & Hd & Gmc & Gcw & Gac & Glog).
  destruct (delete_chore_after_delete pa pb a b st d dcw mc ac log
              Ha Hb Hd Gmc Gcw Gac Glog Fmc Fac Flog)
    as (data_a & Hrun_a & Hrun_ab).
  destruct (delete_chore_after_delete pb pa b a st d dcw mc ac log
              Hb Ha Hd Gmc Gcw Gac Glog Fmc Fac Flog)
    as (data_b & Hrun_b & Hrun_ba).
  exists data_a, data_b. eexists.
  split; [exact Hrun_a|]. split; [exact Hrun_b|].
  split; [|split].
  - rewrite Hrun_ab.
    rewrite (others_comm "id" b a), !(others_comm "choreId" b a).
    reflexivity.
  - rewrite Hrun_ba. reflexivity.
  - unfold masterChores. simpl. now autorewrite with dict.
Qed.

Lemma delete_chore_commutes_witness :
  exists data_a data_b data',
    delete_chore (JObj [("choreId", JNum 3)]) (Some trash_week)
      = (Ok data_a, Some data_a) /\
    delete_chore (JObj [("choreId", JNum 1)]) (Some trash_week)
      = (Ok data_b, Some data_b) /\
    delete_chore (JObj [("choreId", JNum 1)]) (Some data_a)
      = (Ok data', Some data') /\
    delete_chore (JObj [("choreId", JNum 3)]) (Some data_b)
      = (Ok data', Some data').
Proof.
  destruct (delete_chore_commutes (Some trash_week)
              (JObj [("choreId", JNum 3)]) (JObj [("choreId", JNum 1)])
              (JNum 3) (JNum 1) trash_chores trash_assigned trash_log)
    as (data_a & data_b & data' & Ha & Hb & Hab & Hba & _);
    try reflexivity; try (repeat constructor).
  exists data_a, data_b, data'.
  split; [exact Ha|]. split; [exact Hb|]. split; [exact Hab | exact Hba].
Defined.

(** ** Ticking and unticking *)

(** Two [update_weekly_chore] requests for the same pair, one after the
    other. *)
Lemma update_weekly_chore_then p1 p2 cid uid c1 c2 st ac log :
  field "choreId" p1 = Some cid -> field "userId" p1 = Some uid ->
  field "completed" p1 = Some c1 ->
  field "choreId" p2 = Some cid -> field "userId" p2 = Some uid ->
  field "completed" p2 = Some c2 ->
  assignedChores (document st) = Some (JArr ac) ->
  completedLog (document st) = Some (JArr log) ->
  Forall (fun e => is_entry e = true) ac ->
  Forall (fun e => is_entry e = true) log ->
  exists data1 data2,
    update_weekly_chore p1 st = (Ok data1, Some data1) /\
    update_weekly_chore p2 (Some data1) = (Ok data2, Some data2) /\
    completedLog data1 = Some (JArr (log_after p1 cid uid c1 log)) /\
    completedLog data2
      = Some (JArr (log_after p2 cid uid c2 (log_after p1 cid uid c1 log))) /\
    assignedChores data1
      = Some (JArr (update_first (for_pair cid uid)
                      (with_field "completed" c1) ac)) /\
    assignedChores data2
      = Some (JArr (update_first (for_pair cid uid)
                      (with_field "completed" c2)
                      (update_first (for_pair cid uid)
                         (with_field "completed" c1) ac))).
Proof.
  intros Hcid1 Huid1 Hc1 Hcid2 Huid2 Hc2 Hac Hlog Fac Flog.
  apply week_field_inv in Hac as (d & dcw & Hd & Gcw & Gac).
  pose proof Hlog as Glog. rewrite Hd in Glog.
  unfold completedLog, week_field in Glog. simpl in Glog.
  rewrite Gcw in Glog. simpl in Glog.
  set (log1 := log_after p1 cid uid c1 log).
  set (ac1 := update_first (for_pair cid uid) (with_field "completed" c1) ac).
  set (dcw1 := Dict.set "completedLog" (JArr log1)
                 (Dict.set "assignedChores" (JArr ac1) dcw)).
  set (d1 := Dict.set "currentWeek" (JObj dcw1) d).
  assert (Gcw1 : Dict.get "currentWeek" d1 = Some (JObj dcw1))
    by (unfold d1; now autorewrite with dict).
  assert (Gac1 : Dict.get "assignedChores" dcw1 = Some (JArr ac1))
    by (unfold dcw1; now autorewrite with dict).
  assert (Glog1 : Dict.get "completedLog" dcw1 = Some (JArr log1))
    by (unfold dcw1; now autorewrite with dict).
  assert (Fac1 : Forall (fun e => is_entry e = true) ac1)
    by (now apply update_first_entries).
  assert (Flog1 : Forall (fun e => is_entry e = true) log1)
    by (now apply log_after_entries).
  exists (JObj d1). eexists.
  split; [|split; [|split; [|split; [|split]]]].
  - now rewrite (update_weekly_chore_run p1 cid uid c1 Hcid1 Huid1 Hc1
                   st d dcw ac log Hd Gcw Gac Glog Fac Flog).
  - now rewrite (update_weekly_chore_run p2 cid uid c2 Hcid2 Huid2 Hc2
                   (Some (JObj d1)) d1 dcw1 ac1 log1 eq_refl Gcw1 Gac1 Glog1
                   Fac1 Flog1).
  - unfold completedLog, d1. rewrite week_field_of_set. exact Glog1.
  - unfold completedLog. rewrite week_field_of_set. simpl.
    now autorewrite with dict.
  - unfold assignedChores, d1. rewrite week_field_of_set. exact Gac1.
  - unfold assignedChores. rewrite week_field_of_set. simpl.
    now autorewrite with dict.
Qed.

Lemma count_for_other_pairs cid uid l :
  count_for cid uid (other_pairs cid uid l) = 0%nat.
Proof.
  unfold count_for, other_pairs.
  induction l as [|x l IH]; simpl; [reflexivity|].
  destruct (for_pair cid uid x) eqn:E; simpl; [assumption|].
  now rewrite E.
Qed.

Lemma existsb_other_pairs cid uid l :
  existsb (for_pair cid uid) (other_pairs cid uid l) = false.
Proof.
  rewrite existsb_count.
  change (negb (Nat.eqb (count_for cid uid (other_pairs cid uid l)) 0) = false).
  now rewrite count_for_other_pairs.
Qed.

Lemma other_pairs_app cid uid l l' :
  other_pairs cid uid (l ++ l')
  = other_pairs cid uid l ++ other_pairs cid uid l'.
Proof. unfold other_pairs. apply filter_app. Qed.

(** X9. On every document whose assignedChores and completedLog are
    lists of entries that all carry choreId and userId, and for a
    choreId and a userId that each equal themselves under [==] (every
    value but NaN does): unticking a pair ([update_weekly_chore] with
    completed false) and then ticking it (completed true) leaves exactly
    one completedLog entry for the pair, however many the log held
    before: the log is the prior log without the entries for the pair,
    followed by the new entry. *)
Theorem untick_then_tick_logs_exactly_once
  st p_off p_on cid uid c_off c_on ac log :
  field "choreId" p_off = Some cid -> field "userId" p_off = Some uid ->
  field "completed" p_off = Some c_off -> truthy c_off = false ->
  field "choreId" p_on = Some cid -> field "userId" p_on = Some uid ->
  field "completed" p_on = Some c_on -> truthy c_on = true ->
  py_eq cid cid = true -> py_eq uid uid = true ->
  assignedChores (document st) = Some (JArr ac) ->
  completedLog (document st) = Some (JArr log) ->
  Forall (fun e => is_entry e = true) ac ->
  Forall (fun e => is_entry e = true) log ->
  exists data1 data2 log2,
    update_weekly_chore p_off st = (Ok data1, Some data1) /\
    update_weekly_chore p_on (Some data1) = (Ok data2, Some data2) /\
    completedLog data2 = Some (JArr log2) /\
    log2 = filter (fun e => negb (for_pair cid uid e)) log
             ++ [new_log_entry p_on cid uid] /\
    count_for cid uid log2 = 1%nat.
Proof.
  intros Hcid1 Huid1 Hc1 Hoff Hcid2 Huid2 Hc2 Hon Wcid Wuid Hac Hlog Fac Flog.
  destruct (update_weekly_chore_then p_off p_on cid uid c_off c_on st ac log)
    as (data1 & data2 & Hrun1 & Hrun2 & _ & Hlog2 & _); try assumption.
  exists data1, data2. eexists.
  split; [exact Hrun1|]. split; [exact Hrun2|]. split; [exact Hlog2|].
  unfold log_after. rewrite Hoff, Hon, existsb_other_pairs.
  split; [reflexivity|].
  rewrite count_for_app, count_for_other_pairs. unfold count_for. simpl.
  now rewrite new_log_entry_for_pair by assumption.
Qed.

Lemma untick_then_tick_logs_exactly_once_witness :
  exists data1 data2 log2,
    update_weekly_chore
      (JObj [("choreId", JNum 1); ("userId", JNum 2);
             ("completed", JBool false)]) dishes_store
      = (Ok data1, Some data1) /\
    update_weekly_chore dish_done (Some data1) = (Ok data2, Some data2) /\
    completedLog data2 = Some (JArr log2) /\
    count_for (JNum 1) (JNum 2) log2 = 1%nat.
Proof.
  destruct (untick_then_tick_logs_exactly_once dishes_store
              (JObj [("choreId", JNum 1); ("userId", JNum 2);
                     ("completed", JBool false)])
              dish_done (JNum 1) (JNum 2) (JBool false) (JBool true)
              [] [dish_entry 1; dish_entry 2])
    as (data1 & data2 & log2 & H1 & H2 & H3 & _ & H4);
    try reflexivity; try (repeat constructor).
  exists data1, data2, log2.
  split; [exact H1|]. split; [exact H2|]. split; [exact H3 | exact H4].
Defined.

(** X10. On every document whose assignedChores and completedLog are
    lists of entries that all carry choreId and userId, and for a
    choreId and a userId that each equal themselves under [==] (every
    value but NaN does): ticking a pair and then unticking it leaves the
    completedLog without any entry for the pair; when the log held none
    before, it is exactly the log from before. *)
Theorem tick_then_untick_restores_log
  st p_on p_off cid uid c_on c_off ac log :
  field "choreId" p_on = Some cid -> field "userId" p_on = Some uid ->
  field "completed" p_on = Some c_on -> truthy c_on = true ->
  field "choreId" p_off = Some cid -> field "userId" p_off = Some uid ->
  field "completed" p_off = Some c_off -> truthy c_off = false ->
  py_eq cid cid = true -> py_eq uid uid = true ->
  assignedChores (document st) = Some (JArr ac) ->
  completedLog (document st) = Some (JArr log) ->
  Forall (fun e => is_entry e = true) ac ->
  Forall (fun e => is_entry e = true) log ->
  exists data1 data2,
    update_weekly_chore p_on st = (Ok data1, Some data1) /\
    update_weekly_chore p_off (Some data1) = (Ok data2, Some data2) /\
    completedLog data2
      = Some (JArr (filter (fun e => negb (for_pair cid uid e)) log)) /\
    (existsb (for_pair cid uid) log = false ->
     completedLog data2 = completedLog (document st)).
Proof.
  intros Hcid1 Huid1 Hc1 Hon Hcid2 Huid2 Hc2 Hoff Wcid Wuid Hac Hlog Fac Flog.
  destruct (update_weekly_chore_then p_on p_off cid uid c_on c_off st ac log)
    as (data1 & data2 & Hrun1 & Hrun2 & _ & Hlog2 & _); try assumption.
  assert (E : log_after p_off cid uid c_off (log_after p_on cid uid c_on log)
              = other_pairs cid uid log).
  { unfold log_after. rewrite Hoff, Hon.
    destruct (existsb (for_pair cid uid) log); [reflexivity|].
    rewrite other_pairs_app. unfold other_pairs at 2. simpl.
    rewrite new_log_entry_for_pair by assumption. apply app_nil_r. }
  rewrite E in Hlog2.
  exists data1, data2.
  split; [exact Hrun1|]. split; [exact Hrun2|]. split; [exact Hlog2|].
  intros Hnone. rewrite Hlog2, Hlog. do 2 f_equal.
  apply filter_all. apply Forall_forall. intros e He.
  apply negb_true_iff. destruct (for_pair cid uid e) eqn:Ee; [|reflexivity].
  assert (existsb (for_pair cid uid) log = true); [|congruence].
  apply existsb_exists. eauto.
Qed.

Lemma tick_then_untick_restores_log_witness :
  exists data1 data2,
    update_weekly_chore tick (serve (AddChore take_out_trash) None)
      = (Ok data1, Some data1) /\
    update_weekly_chore untick (Some data1) = (Ok data2, Some data2) /\
    completedLog data2 = Some (JArr []).
Proof.
  destruct (tick_then_untick_restores_log
              (serve (AddChore take_out_trash) None)
              tick untick (JNum 3) (JNum 1) (JBool true) (JBool false)
              [JObj [("choreId", JNum 3); ("userId", JNum 1);
                     ("completed", JBool false)]]
              [])
    as (data1 & data2 & H1 & H2 & _ & H3);
    try reflexivity; try (repeat constructor).
  exists data1, data2.
  split; [exact H1|]. split; [exact H2 | exact (H3 eq_refl)].
Defined.

(** ** Repeating a request *)

Lemma for_pair_with_completed cid uid c x :
  for_pair cid uid (with_field "completed" c x) = for_pair cid uid x.
Proof.
  destruct x; try reflexivity.
  unfold for_pair, refers_to. simpl. now autorewrite with dict.
Qed.

Lemma with_field_idem k v x : with_field k v (with_field k v x) = with_field k v x.
Proof. destruct x; simpl; try reflexivity. now rewrite DictFacts.set_set. Qed.

Lemma update_first_idem g h l :
  (forall x, g (h x) = g x) -> (forall x, h (h x) = h x) ->
  update_first g h (update_first g h l) = update_first g h l.
Proof.
  intros Hg Hh. induction l as [|x l IH]; simpl; [reflexivity|].
  destruct (g x) eqn:E; simpl.
  - now rewrite Hg, E, Hh.
  - now rewrite E, IH.
Qed.

(** X11. On every document whose assignedChores and completedLog are
    lists of entries that all carry choreId and userId, and for a
    payload whose choreId and userId each equal themselves under [==]
    (every value but NaN does), [update_weekly_chore] is idempotent:
    sending the same payload a second time returns and persists exactly
    the document the first call produced, whether completed is true or
    false. *)
Theorem update_weekly_chore_twice_is_once st payload cid uid c ac log :
  field "choreId" payload = Some cid ->
  field "userId" payload = Some uid ->
  field "completed" payload = Some c ->
  py_eq cid cid = true -> py_eq uid uid = true ->
  assignedChores (document st) = Some (JArr ac) ->
  completedLog (document st) = Some (JArr log) ->
  Forall (fun e => is_entry e = true) ac ->
  Forall (fun e => is_entry e = true) log ->
  exists data1,
    update_weekly_chore payload st = (Ok data1, Some data1) /\
    update_weekly_chore payload (Some data1) = (Ok data1, Some data1).
Proof.
  intros Hcid Huid Hc Wcid Wuid Hac Hlog Fac Flog.
  apply week_field_inv in Hac as (d & dcw & Hd & Gcw & Gac).
  pose proof Hlog as Glog. rewrite Hd in Glog.
  unfold completedLog, week_field in Glog. simpl in Glog.
  rewrite Gcw in Glog. simpl in Glog.
  set (log1 := log_after payload cid uid c log).
  set (ac1 := update_first (for_pair cid uid) (with_field "completed" c) ac).
  set (dcw1 := Dict.set "completedLog" (JArr log1)
                 (Dict.set "assignedChores" (JArr ac1) dcw)).
  set (d1 := Dict.set "currentWeek" (JObj dcw1) d).
  assert (Gcw1 : Dict.get "currentWeek" d1 = Some (JObj dcw1))
    by (unfold d1; now autorewrite with dict).
  assert (Gac1 : Dict.get "assignedChores" dcw1 = Some (JArr ac1))
    by (unfold dcw1; now autorewrite with dict).
  assert (Glog1 : Dict.get "completedLog" dcw1 = Some (JArr log1))
    by (unfold dcw1; now autorewrite with dict).
  assert (Fac1 : Forall (fun e => is_entry e = true) ac1)
    by (now apply update_first_entries).
  assert (Flog1 : Forall (fun e => is_entry e = true) log1)
    by (now apply log_after_entries).
  exists (JObj d1). split.
  - now rewrite (update_weekly_chore_run payload cid uid c Hcid Huid Hc
                   st d dcw ac log Hd Gcw Gac Glog Fac Flog).
  - rewrite (update_weekly_chore_run payload cid uid c Hcid Huid Hc
               (Some (JObj d1)) d1 dcw1 ac1 log1 eq_refl Gcw1 Gac1 Glog1
               Fac1 Flog1).
    unfold log1 at 1, ac1 at 1.
    rewrite log_after_idem by assumption.
    rewrite update_first_idem
      by (intros x; apply for_pair_with_completed || apply with_field_idem).
    fold log1. fold ac1.
    rewrite (DictFacts.set_same "assignedChores" _ _ Gac1).
    rewrite (DictFacts.set_same "completedLog" _ _ Glog1).
    rewrite (DictFacts.set_same "currentWeek" _ _ Gcw1).
    reflexivity.
Qed.

Lemma update_weekly_chore_twice_is_once_witness :
  exists data1,
    update_weekly_chore untick (Some trash_week) = (Ok data1, Some data1) /\
    update_weekly_chore untick (Some data1) = (Ok data1, Some data1).
Proof.
  apply (update_weekly_chore_twice_is_once (Some trash_week) untick
           (JNum 3) (JNum 1) (JBool false) trash_assigned trash_log);
    try reflexivity; repeat constructor.
Defined.

Lemma map_with_field_idem k v l :
  map (with_field k v) (map (with_field k v) l) = map (with_field k v) l.
Proof.
  rewrite map_map. apply map_ext. intros x. apply with_field_idem.
Qed.

Lemma with_field_is_obj k v x : is_obj (with_field k v x) = is_obj x.
Proof. now destruct x. Qed.

(** X12. On every document whose assignedChores is a list of objects,
    [reset_week] is idempotent: sending the same payload a second time
    returns and persists exactly the document the first call produced. *)
Theorem reset_week_twice_is_once st payload p ac :
  field "prize" payload = Some p ->
  assignedChores (document st) = Some (JArr ac) ->
  Forall (fun e => is_obj e = true) ac ->
  exists data1,
    reset_week payload st = (Ok data1, Some data1) /\
    reset_week payload (Some data1) = (Ok data1, Some data1).
Proof.
  intros Hp Hac Fac.
  apply week_field_inv in Hac as (d & dcw & Hd & Gcw & Gac).
  set (ac1 := map (with_field "completed" (JBool false)) ac).
  set (dcw1 := Dict.set "assignedChores" (JArr ac1)
                 (Dict.set "completedLog" (JArr [])
                    (Dict.set "prize" p dcw))).
  set (d1 := Dict.set "currentWeek" (JObj dcw1) d).
  assert (Gcw1 : Dict.get "currentWeek" d1 = Some (JObj dcw1))
    by (unfold d1; now autorewrite with dict).
  assert (Gac1 : Dict.get "assignedChores" dcw1 = Some (JArr ac1))
    by (unfold dcw1; now autorewrite with dict).
  assert (Glog1 : Dict.get "completedLog" dcw1 = Some (JArr []))
    by (unfold dcw1; now autorewrite with dict).
  assert (Gp1 : Dict.get "prize" dcw1 = Some p)
    by (unfold dcw1; now autorewrite with dict).
  assert (Fac1 : Forall (fun e => is_obj e = true) ac1).
  { unfold ac1. apply Forall_map. eapply Forall_impl; [|exact Fac].
    intros e He. now rewrite with_field_is_obj. }
  exists (JObj d1). split.
  - now rewrite (reset_week_run payload st p d dcw ac Hp Hd Gcw Gac Fac).
  - rewrite (reset_week_run payload (Some (JObj d1)) p d1 dcw1 ac1
               Hp eq_refl Gcw1 Gac1 Fac1).
    unfold ac1 at 1. rewrite map_with_field_idem. fold ac1.
    rewrite (DictFacts.set_same "prize" _ _ Gp1).
    rewrite (DictFacts.set_same "completedLog" _ _ Glog1).
    rewrite (DictFacts.set_same "assignedChores" _ _ Gac1).
    rewrite (DictFacts.set_same "currentWeek" _ _ Gcw1).
    reflexivity.
Qed.

Lemma reset_week_twice_is_once_witness :
  exists data1,
    reset_week (JObj [("prize", JStr "Movie night")]) (Some trash_week)
      = (Ok data1, Some data1) /\
    reset_week (JObj [("prize", JStr "Movie night")]) (Some data1)
      = (Ok data1, Some data1).
Proof.
  apply (reset_week_twice_is_once (Some trash_week)
           (JObj [("prize", JStr "Movie night")]) (JStr "Movie night")
           trash_assigned);
    try reflexivity; repeat constructor.
Defined.

(** ** Requests that cannot fail *)

Lemma first_missing_none payload :
  first_missing ["id"; "name"; "points"; "type"] payload = None ->
  exists id name points type,
    field "id" payload = Some id /\ field "name" payload = Some name /\
    field "points" payload = Some points /\ field "type" payload = Some type.
Proof.
  unfold first_missing, has_key. simpl.
  destruct (field "id" payload) as [id|]; simpl; [|discriminate].
  destruct (field "name" payload) as [name|]; simpl; [|discriminate].
  destruct (field "points" payload) as [points|]; simpl; [|discriminate].
  destruct (field "type" payload) as [type|]; simpl; [|discriminate].
  intros _. exists id, name, points, type. auto.
Qed.

(** X13. On every store that a fresh installation can get into:
    [log_chore] succeeds for every payload; [add_chore] succeeds for
    every payload that has the keys id, name, points and type; and
    [reset_week] succeeds for every payload that has the key prize.  No
    earlier request, whatever its payload, can make them fail. *)
Theorem requests_that_cannot_fail st :
  reachable st ->
  (forall payload,
      exists data', log_chore payload st = (Ok data', Some data')) /\
  (forall payload,
      first_missing ["id"; "name"; "points"; "type"] payload = None ->
      exists data', add_chore payload st = (Ok data', Some data')) /\
  (forall payload,
      has_key "prize" payload = true ->
      exists data', reset_week payload st = (Ok data', Some data')).
Proof.
  intros Hst. apply reachable_shape in Hst.
  destruct (well_shaped_inv _ Hst)
    as (d & dcw & mc & ac & log & Hd & Gmc & Gcw & Gac & Glog & Fmc & Fac).
  split; [|split].
  - intros payload. eexists.
    now rewrite (log_chore_run st payload d dcw log Hd Gcw Glog).
  - intros payload Hkeys.
    destruct (first_missing_none _ Hkeys)
      as (id & name & points & type & Hid & Hname & Hpoints & Htype).
    eexists.
    now rewrite (add_chore_run payload st id name points type d dcw mc ac).
  - intros payload Hkey. apply has_key_field in Hkey as (p & Hp).
    eexists.
    rewrite (reset_week_run payload st p d dcw ac Hp Hd Gcw Gac)
      by (eapply Forall_impl; [|exact Fac]; apply is_entry_is_obj).
    reflexivity.
Qed.

Lemma requests_that_cannot_fail_witness :
  (exists data', log_chore JNull noted_store = (Ok data', Some data')) /\
  (exists data', add_chore take_out_trash noted_store = (Ok data', Some data')) /\
  (exists data',
      reset_week (JObj [("prize", JNum 0)]) noted_store
      = (Ok data', Some data')).
Proof.
  destruct (requests_that_cannot_fail noted_store
              (reach_serve _ _ reach_fresh))
    as (Hlog & Hadd & Hreset).
  split; [apply Hlog|]. split; [apply Hadd | apply Hreset]; reflexivity.
Defined.

(** ** A log entry without choreId *)

Lemma keep_other_pair_partial payload e b :
  (hit <- same_pair e payload ;; Ok (negb hit)) = Ok b ->
  has_key "choreId" e = true.
Proof.
  unfold same_pair, and_then.
  destruct (getitem e "choreId") as [a|] eqn:G; [|discriminate].
  intros _. eapply getitem_has_key; eauto.
Qed.

(** X14. On a well shaped document, [update_weekly_chore] with a false
    completed returns only if every completedLog entry has a choreId
    key: a single entry without one, as [log_chore] accepts it, makes
    every such request raise, even for another chore and user. *)
Theorem untick_needs_choreId_in_every_log_entry
  payload st c log data' st' :
  well_shaped (document st) ->
  completedLog (document st) = Some (JArr log) ->
  field "completed" payload = Some c ->
  truthy c = false ->
  update_weekly_chore payload st = (Ok data', st') ->
  Forall (fun e => has_key "choreId" e = true) log.
Proof.
  intros Hst Hlog Hc Hfalse.
  destruct (well_shaped_inv _ Hst)
    as (d & dcw & mc & ac & log0 & Hd & Gmc & Gcw & Gac & Glog & Fmc & Fac).
  rewrite Hd in Hlog. unfold completedLog, week_field in Hlog.
  simpl in Hlog. rewrite Gcw in Hlog. simpl in Hlog.
  rewrite Glog in Hlog. injection Hlog as ->.
  destruct (field_inv _ _ _ Hc) as (pd & Hpd & _).
  rewrite (update_weekly_chore_shaped payload st d dcw ac log)
    by (assumption || (rewrite Hpd; reflexivity)).
  apply getitem_field in Hc.
  destruct (for_first _ _ ac) as [chores|]; [|discriminate]. simpl.
  rewrite Hc. simpl. rewrite Hfalse.
  destruct (filter_m _ log) as [kept|] eqn:E; [|discriminate].
  intros _.
  exact (filter_m_defined _ _ (keep_other_pair_partial payload) _ _ E).
Qed.

Lemma untick_needs_choreId_in_every_log_entry_witness :
  Forall (fun e => has_key "choreId" e = true) trash_log.
Proof.
  eapply (untick_needs_choreId_in_every_log_entry untick (Some trash_week)
            (JBool false) trash_log);
    [exact trash_week_shape | reflexivity | reflexivity | reflexivity
    | reflexivity].
Defined.

(** ** Reset Week repairs the store *)

Lemma is_entry_has_choreId e : is_entry e = true -> has_key "choreId" e = true.
Proof. unfold is_entry. intros H. now apply andb_true_iff in H as [-> _]. Qed.

(** X15. On every store that a fresh installation can get into, a
    [reset_week] with a prize succeeds, and on the document it leaves
    behind every [delete_chore] with a choreId and every
    [update_weekly_chore] with choreId, userId and completed succeeds,
    whatever [log_chore] had put into the log before. *)
Theorem reset_week_makes_requests_succeed st payload p :
  reachable st ->
  field "prize" payload = Some p ->
  exists data1,
    reset_week payload st = (Ok data1, Some data1) /\
    completedLog data1 = Some (JArr []) /\
    (forall q cid,
        field "choreId" q = Some cid ->
        exists data2, delete_chore q (Some data1) = (Ok data2, Some data2)) /\
    (forall q cid uid c,
        field "choreId" q = Some cid ->
        field "userId" q = Some uid ->
        field "completed" q = Some c ->
        exists data2,
          update_weekly_chore q (Some data1) = (Ok data2, Some data2)).
Proof.
  intros Hst Hp. apply reachable_shape in Hst.
  destruct (well_shaped_inv _ Hst)
    as (d & dcw & mc & ac & log & Hd & Gmc & Gcw & Gac & Glog & Fmc & Fac).
  set (ac1 := map (with_field "completed" (JBool false)) ac).
  set (dcw1 := Dict.set "assignedChores" (JArr ac1)
                 (Dict.set "completedLog" (JArr [])
                    (Dict.set "prize" p dcw))).
  set (d1 := Dict.set "currentWeek" (JObj dcw1) d).
  assert (Gmc1 : Dict.get "masterChores" d1 = Some (JArr mc))
    by (unfold d1; now autorewrite with dict).
  assert (Gcw1 : Dict.get "currentWeek" d1 = Some (JObj dcw1))
    by (unfold d1; now autorewrite with dict).
  assert (Gac1 : Dict.get "assignedChores" dcw1 = Some (JArr ac1))
    by (unfold dcw1; now autorewrite with dict).
  assert (Glog1 : Dict.get "completedLog" dcw1 = Some (JArr []))
    by (unfold dcw1; now autorewrite with dict).
  assert (Fac1 : Forall (fun e => is_entry e = true) ac1).
  { unfold ac1. apply Forall_map. eapply Forall_impl; [|exact Fac].
    intros e He. now apply is_entry_with_completed. }
  exists (JObj d1). split; [|split; [|split]].
  - rewrite (reset_week_run payload st p d dcw ac Hp Hd Gcw Gac)
      by (eapply Forall_impl; [|exact Fac]; apply is_entry_is_obj).
    reflexivity.
  - unfold completedLog, d1. rewrite week_field_of_set. exact Glog1.
  - intros q cid Hq. apply getitem_field in Hq. eexists.
    rewrite (delete_chore_run q (Some (JObj d1)) cid d1 dcw1 _ _ _ _ _ _
               Hq eq_refl Gmc1 Gcw1 Gac1 Glog1
               (without_chore_list _ _ _ Fmc)
               (without_chore_list _ _ ac1
                  (Forall_impl _ is_entry_has_choreId Fac1))
               (without_chore_list _ _ [] (Forall_nil _))).
    reflexivity.
  - intros q cid uid c Hcid Huid Hc. eexists.
    rewrite (update_weekly_chore_run q cid uid c Hcid Huid Hc
               (Some (JObj d1)) d1 dcw1 ac1 [] eq_refl Gcw1 Gac1 Glog1
               Fac1 (Forall_nil _)).
    reflexivity.
Qed.

Lemma reset_week_makes_requests_succeed_witness :
  exists data1,
    reset_week (JObj [("prize", JStr "Movie night")]) noted_store
      = (Ok data1, Some data1) /\
    (exists data2,
        delete_chore (JObj [("choreId", JNum 3)]) (Some data1)
        = (Ok data2, Some data2)) /\
    (exists data2, update_weekly_chore untick (Some data1) = (Ok data2, Some data2)).
Proof.
  destruct (reset_week_makes_requests_succeed noted_store
              (JObj [("prize", JStr "Movie night")]) (JStr "Movie night")
              (reach_serve _ _ reach_fresh) eq_refl)
    as (data1 & Hreset & _ & Hdel & Hupd).
  exists data1. split; [exact Hreset|]. split.
  - apply (Hdel (JObj [("choreId", JNum 3)]) (JNum 3)). reflexivity.
  - apply (Hupd untick (JNum 3) (JNum 1) (JBool false)); reflexivity.
Defined.

(** ** Reading after a request *)

(** X16. For every request and every store, a [get_state] that follows
    returns the document the request left, and leaves the store holding
    that document: the document of the response when the request
    succeeded, and the document the request had found when it raised.
    When db.json was missing and the request raised before reading it,
    that document is the seed document, and it is this [get_state] that
    writes db.json. *)
Theorem get_state_reads_what_the_request_left r st :
  get_state (serve r st)
  = match fst (handle r st) with
    | Ok data' => (Ok data', Some data')
    | Raise _ => (Ok (document st), Some (document st))
    end.
Proof.
  unfold serve.
  destruct (handle_form r st) as [(x & ->) | (e & ->)]; simpl.
  - now destruct x.
  - now destruct st.
Qed.
